(** * Battery simulator: batteries, charging strategies and sites

    A shallow embedding of [battery.py], [charging_strategy.py] and [site.py].

    Numbers.  The program computes with [decimal.Decimal] and Python integers
    of a few digits.  A decimal value is a rational number, so values are
    embedded in [Q]; Python's [==] and [<] on numbers compare numerically,
    which is [Qeq_bool] and [Qcompare] here, and statements about numeric
    values are up to [Qeq] ([==]).  The arithmetic is that of the default
    decimal context: the result of [+], [-] and [/] is the exact result
    rounded to 28 significant digits, ties to even ([Decimal.fix_]).  The
    exponent range of the context, signed zeros and the special values are
    not modelled.

    Effects.  A method that mutates [self] or raises is a function from the
    object to an outcome and the object as the method leaves it; an exception
    keeps the mutations made before it was raised. *)

From Stdlib Require Import QArith Qminmax Qround Qpower ZArith List Bool String
  Lia Lqa.
Import ListNotations.

Local Open Scope Q_scope.

(** ** Exceptions and outcomes *)

Inductive exn : Type :=
| ValueError (msg : string)
| IndexError
| ArithmeticError
| NotImplementedError
| BatteryFullError (battery_id : string)
| BatteryEmptyError (battery_id : string).

Inductive result (A : Type) : Type :=
| Ok (a : A)
| Raise (e : exn).

Arguments Ok {A} a.
Arguments Raise {A} e.

(** Pure code that may raise. *)
Definition rbind {A B} (r : result A) (k : A -> result B) : result B :=
  match r with
  | Ok a => k a
  | Raise e => Raise e
  end.

(** Code that may raise and mutates an object of type [S]. *)
Definition Exec (S A : Type) : Type := S -> result A * S.

Definition ret {S A} (a : A) : Exec S A := fun s => (Ok a, s).

Definition raise {S A} (e : exn) : Exec S A := fun s => (Raise e, s).

Definition bind {S A B} (m : Exec S A) (k : A -> Exec S B) : Exec S B :=
  fun s =>
    match m s with
    | (Ok a, s') => k a s'
    | (Raise e, s') => (Raise e, s')
    end.

Definition get {S} : Exec S S := fun s => (Ok s, s).

Declare Scope exec_scope.
Delimit Scope exec_scope with exec.
Notation "x <- m ;; k" := (bind m (fun x => k))
  (at level 61, m at next level, right associativity) : exec_scope.
Notation "m ;; k" := (bind m (fun _ => k))
  (at level 61, right associativity) : exec_scope.

Declare Scope result_scope.
Delimit Scope result_scope with result.
Notation "x <- r ;; k" := (rbind r (fun x => k))
  (at level 61, r at next level, right associativity) : result_scope.

(** ** decimal.Decimal

    The arithmetic of the default context: precision 28, rounding
    [ROUND_HALF_EVEN]. *)

Module Decimal.

(** [getcontext().prec] *)
Definition prec : Z := 28.

Definition pow10 (e : Z) : Q := 10 ^ e.

(** The number of decimal digits of a positive integer. *)
Fixpoint digits_aux (fuel : nat) (n : Z) : Z :=
  match fuel with
  | O => 1
  | S fuel' => if (n <? 10)%Z then 1 else (1 + digits_aux fuel' (n / 10))%Z
  end.

Definition digits (n : Z) : Z := digits_aux (Z.to_nat (Z.log2 n)) n.

(** The exponent of the leading digit of a positive number: the [a] with
    [10^a <= q < 10^(a+1)]. *)
Definition adjusted (q : Q) : Z :=
  let c := (digits (Qnum q) - digits (Zpos (Qden q)))%Z in
  if Qle_bool (pow10 c) q then c else (c - 1)%Z.

(** The nearest integer, the even one of two that are equally near. *)
Definition round_half_even (q : Q) : Z :=
  let f := Qfloor q in
  match Qcompare (q - inject_Z f) (1 # 2) with
  | Lt => f
  | Gt => (f + 1)%Z
  | Eq => if Z.even f then f else (f + 1)%Z
  end.

(** A positive number rounded to [prec] significant digits. *)
Definition round_pos (q : Q) : Q :=
  let e := (adjusted q - (prec - 1))%Z in
  inject_Z (round_half_even (q / pow10 e)) * pow10 e.

(** The rounding that ends every operation ([Decimal._fix]). *)
Definition fix_ (q : Q) : Q :=
  let r := Qred q in
  match Qnum r with
  | Z0 => 0
  | Zpos _ => Qred (round_pos r)
  | Zneg _ => Qred (- round_pos (- r))
  end.

(** [x + y], [x - y] and [x / y] for a divisor that is not zero. *)
Definition add (x y : Q) : Q := fix_ (x + y).

Definition sub (x y : Q) : Q := fix_ (x - y).

Definition truediv (x y : Q) : Q := fix_ (x / y).

End Decimal.

(** ** Python built-ins used by the program *)

(** [x < y] on numbers. *)
Definition Qlt_bool (x y : Q) : bool :=
  match x ?= y with
  | Lt => true
  | _ => false
  end.

(** [sum(l)]: a left fold of [+] that starts from [0]. *)
Definition sum (l : list Q) : Q := fold_left Decimal.add l 0.

(** [min(l)]: raises on the empty list, keeps the first of equal minima. *)
Definition py_min (l : list Q) : result Q :=
  match l with
  | [] => Raise (ValueError "min() arg is an empty sequence")
  | x :: t => Ok (fold_left (fun m y => if Qlt_bool y m then y else m) t x)
  end.

(** [max(l)]: raises on the empty list, keeps the first of equal maxima. *)
Definition py_max (l : list Q) : result Q :=
  match l with
  | [] => Raise (ValueError "max() arg is an empty sequence")
  | x :: t => Ok (fold_left (fun m y => if Qlt_bool m y then y else m) t x)
  end.

(** [l[i]]: a negative index counts from the end, anything else out of
    range raises [IndexError]. *)
Definition py_index {A} (l : list A) (i : Z) : result A :=
  let n := Z.of_nat (List.length l) in
  let j := (if i <? 0 then i + n else i)%Z in
  if ((0 <=? j) && (j <? n))%Z
  then match nth_error l (Z.to_nat j) with
       | Some a => Ok a
       | None => Raise IndexError
       end
  else Raise IndexError.

(** [zip] applied to the unpacked list [ls]: the tuples of the elements at the same position, as long as
    every list has one; no tuple at all when there is no list. *)
Fixpoint zip_star {A} (ls : list (list A)) : list (list A) :=
  match ls with
  | [] => []
  | l :: rest =>
      match rest with
      | [] => map (fun x => [x]) l
      | _ :: _ => map (fun p => fst p :: snd p) (combine l (zip_star rest))
      end
  end.

(** ** battery.py *)

Definition generate_battery_id : string := "abcdfgt".

Inductive BatteryState : Type := CHARGING | DISCHARGING | IDLE.

Definition BatteryState_eqb (a b : BatteryState) : bool :=
  match a, b with
  | CHARGING, CHARGING | DISCHARGING, DISCHARGING | IDLE, IDLE => true
  | _, _ => false
  end.

(** The attributes of a battery object. *)
Record Battery : Type := mkBattery {
  battery_id : string;
  _energy_capacity : Q;
  _power_capacity : Q;
  _state : BatteryState;
  cycle_rate : Q;
  battery_inputs : list Q;
  battery_outputs : list Q
}.

Module Battery.

Definition set_battery_id (v : string) : Exec Battery unit := fun self =>
  (Ok tt, mkBattery v (_energy_capacity self) (_power_capacity self)
                    (_state self) (cycle_rate self)
                    (battery_inputs self) (battery_outputs self)).

Definition set__energy_capacity (v : Q) : Exec Battery unit := fun self =>
  (Ok tt, mkBattery (battery_id self) v (_power_capacity self)
                    (_state self) (cycle_rate self)
                    (battery_inputs self) (battery_outputs self)).

Definition set__power_capacity (v : Q) : Exec Battery unit := fun self =>
  (Ok tt, mkBattery (battery_id self) (_energy_capacity self) v
                    (_state self) (cycle_rate self)
                    (battery_inputs self) (battery_outputs self)).

Definition set__state (v : BatteryState) : Exec Battery unit := fun self =>
  (Ok tt, mkBattery (battery_id self) (_energy_capacity self)
                    (_power_capacity self) v (cycle_rate self)
                    (battery_inputs self) (battery_outputs self)).

Definition set_cycle_rate (v : Q) : Exec Battery unit := fun self =>
  (Ok tt, mkBattery (battery_id self) (_energy_capacity self)
                    (_power_capacity self) (_state self) v
                    (battery_inputs self) (battery_outputs self)).

Definition set_battery_inputs (v : list Q) : Exec Battery unit := fun self =>
  (Ok tt, mkBattery (battery_id self) (_energy_capacity self)
                    (_power_capacity self) (_state self) (cycle_rate self)
                    v (battery_outputs self)).

Definition set_battery_outputs (v : list Q) : Exec Battery unit := fun self =>
  (Ok tt, mkBattery (battery_id self) (_energy_capacity self)
                    (_power_capacity self) (_state self) (cycle_rate self)
                    (battery_inputs self) v).

(** [Battery.__init__(battery_inputs=None, battery_outputs=None)] *)
Definition __init__ (inputs outputs : option (list Q)) : Exec Battery unit :=
  (set_battery_id generate_battery_id ;;
   match inputs with
   | None => set_battery_inputs []
   | Some l => set_battery_inputs l
   end ;;
   match outputs with
   | None => set_battery_outputs []
   | Some l => set_battery_outputs l
   end)%exec.

(** The [energy_capacity] property and its setter. *)
Definition energy_capacity (self : Battery) : Q := _energy_capacity self.

Definition energy_capacity_setter (value : Q) : Exec Battery unit :=
  if Qlt_bool value 0
  then raise (ValueError "Energy capacity cannot be negative")
  else set__energy_capacity value.

Definition current_capacity (self : Battery) : Q :=
  Decimal.sub (sum (battery_inputs self)) (sum (battery_outputs self)).

(** Division raises on a zero divisor and rounds otherwise. *)
Definition py_div (x y : Q) : result Q :=
  if Qeq_bool y 0 then Raise ArithmeticError else Ok (Decimal.truediv x y).

Definition state_of_charge (self : Battery) : result Q :=
  py_div (current_capacity self) (energy_capacity self).

(** The [power_capacity] property and its setter. *)
Definition power_capacity (self : Battery) : Q := _power_capacity self.

Definition power_capacity_setter (value : Q) : Exec Battery unit :=
  if Qlt_bool value 0
  then raise (ValueError "Power capacity cannot be zero")
  else set__power_capacity value.

Definition storage_duration (self : Battery) : result Q :=
  py_div (energy_capacity self) (power_capacity self).

(** The [state] property and its setter. *)
Definition state (self : Battery) : BatteryState := _state self.

Definition state_setter (state_value : BatteryState) : Exec Battery unit :=
  set__state state_value.

Definition charge : Exec Battery unit :=
  (self <- get ;;
   if Qeq_bool (current_capacity self) (energy_capacity self)
   then raise (BatteryFullError
                 (battery_id self ++ " - Battery is full and cannot charge")%string)
   else state_setter CHARGING)%exec.

Definition idle : Exec Battery unit := state_setter IDLE.

Definition discharge : Exec Battery unit :=
  (self <- get ;;
   if Qeq_bool (current_capacity self) 0
   then raise (BatteryEmptyError
                 (battery_id self ++ " Battery is empty and cannot discharge")%string)
   else state_setter DISCHARGING)%exec.

Definition increment : Exec Battery unit :=
  (self <- get ;;
   match state self with
   | CHARGING =>
       set_battery_inputs
         (battery_inputs self ++ [Decimal.truediv (power_capacity self) 60])
   | DISCHARGING =>
       set_battery_outputs
         (battery_outputs self ++ [Decimal.truediv (power_capacity self) 60])
   | IDLE => ret tt
   end)%exec.

End Battery.

Module GridBattery.

(** The object as allocated, before [__init__] has assigned its attributes.
    [__init__] assigns every one of them (see [init_any_self]). *)
Definition blank : Battery := mkBattery "" 0 0 IDLE 0 [] [].

Definition __init__ : Exec Battery unit :=
  (Battery.energy_capacity_setter 5000 ;;
   Battery.power_capacity_setter 2500 ;;
   Battery.state_setter IDLE ;;
   Battery.set_cycle_rate 0 ;;
   Battery.__init__ (Some [5000]) (Some [0]))%exec.

(** The expression [GridBattery()]. *)
Definition new : result Battery :=
  match __init__ blank with
  | (Ok _, self) => Ok self
  | (Raise e, _) => Raise e
  end.

End GridBattery.

(** ** charging_strategy.py *)

Module LowestToHighestChargingStrategy.

Definition determine_charge_battery
    (charge_rate : Q) (batteries : list Battery) : result Battery :=
  (lowest_charge <-
     py_min (map Battery.current_capacity
               (filter (fun battery =>
                          negb (BatteryState_eqb (Battery.state battery) CHARGING))
                       batteries)) ;;
   let eligible_batteries :=
     filter (fun battery =>
               Qeq_bool (Battery.current_capacity battery) lowest_charge)
            batteries in
   py_index eligible_batteries 0)%result.

Definition determine_discharge_battery
    (discharge_rate : Q) (batteries : list Battery) : result Battery :=
  (highest_charge <-
     py_max (map Battery.current_capacity
               (filter (fun battery =>
                          negb (BatteryState_eqb (Battery.state battery) DISCHARGING))
                       batteries)) ;;
   let eligible_batteries :=
     filter (fun battery =>
               Qeq_bool (Battery.current_capacity battery) highest_charge)
            batteries in
   py_index eligible_batteries 0)%result.

End LowestToHighestChargingStrategy.

Module RandomChargingStrategy.

(** [random.randint] is a parameter of the model: [randint a b] is the value
    drawn by the call, and the library promises [a <= randint a b <= b]. *)
Definition randint_contract (randint : Z -> Z -> Z) : Prop :=
  forall a b, (a <= b)%Z -> (a <= randint a b <= b)%Z.

Definition determine_charge_battery
    (randint : Z -> Z -> Z) (batteries : list Battery) : result Battery :=
  let eligible_batteries :=
    filter (fun battery =>
              negb (BatteryState_eqb (Battery.state battery) CHARGING))
           batteries in
  py_index eligible_batteries
           (randint 0%Z (Z.of_nat (List.length eligible_batteries))).

Definition determine_discharge_battery
    (randint : Z -> Z -> Z) (batteries : list Battery) : result Battery :=
  let eligible_batteries :=
    filter (fun battery =>
              negb (BatteryState_eqb (Battery.state battery) DISCHARGING))
           batteries in
  py_index eligible_batteries
           (randint 0%Z (Z.of_nat (List.length eligible_batteries))).

End RandomChargingStrategy.

(** ** site.py *)

Definition generate_site_id : string := "Site A".

Record Site : Type := mkSite {
  site_id : string;
  location : string;
  batteries : list Battery
}.

Module Site.

Definition __init__ (batteries : list Battery) (location : string) : Site :=
  mkSite generate_site_id location batteries.

Definition __post_init__ : Exec Site unit := raise NotImplementedError.

Definition energy_capacity (self : Site) : Q :=
  sum (map Battery.energy_capacity (batteries self)).

Definition current_capacity (self : Site) : Q :=
  sum (map Battery.current_capacity (batteries self)).

Definition power_capacity (self : Site) : Q :=
  sum (map Battery.power_capacity (batteries self)).

Fixpoint state_scan (l : list Battery) : BatteryState :=
  match l with
  | [] => IDLE
  | battery :: rest =>
      match Battery.state battery with
      | CHARGING => CHARGING
      | DISCHARGING => DISCHARGING
      | IDLE => state_scan rest
      end
  end.

Definition state (self : Site) : BatteryState := state_scan (batteries self).

Definition power_input (self : Site) : list Q :=
  let battery_input_lists := map battery_inputs (batteries self) in
  map sum (zip_star battery_input_lists).

(** The body of [charge] is its docstring: it returns [None] and touches
    nothing. *)
Definition charge (rate : Q) : Exec Site unit := ret tt.

End Site.

(** ** Notions used in the statements *)

(** Field updates. *)
Definition with_state (s : BatteryState) (b : Battery) : Battery :=
  mkBattery (battery_id b) (_energy_capacity b) (_power_capacity b) s
            (cycle_rate b) (battery_inputs b) (battery_outputs b).

Definition with_inputs (l : list Q) (b : Battery) : Battery :=
  mkBattery (battery_id b) (_energy_capacity b) (_power_capacity b) (_state b)
            (cycle_rate b) l (battery_outputs b).

Definition with_outputs (l : list Q) (b : Battery) : Battery :=
  mkBattery (battery_id b) (_energy_capacity b) (_power_capacity b) (_state b)
            (cycle_rate b) (battery_inputs b) l.

(** The object after a method call, whatever its outcome. *)
Definition after {S A} (m : Exec S A) (s : S) : S := snd (m s).

(** [for _ in range(n): m()] *)
Fixpoint times {S} (n : nat) (m : Exec S unit) : Exec S unit :=
  match n with
  | O => ret tt
  | Datatypes.S k => (m ;; times k m)%exec
  end.

(** The attributes of a [GridBattery()] once constructed. *)
Definition grid_battery : Battery :=
  mkBattery "abcdfgt" 5000 2500 IDLE 0 [5000] [0].

(** A grid battery that has discharged for one tick. *)
Definition grid_battery_after_one_tick : Battery :=
  after Battery.increment (after Battery.discharge grid_battery).

(** A value that the decimal context does not change: an operation is
    exact when its exact result is such a value. *)
Definition exact (q : Q) : Prop := Decimal.fix_ q == q.

Definition exactb (q : Q) : bool := Qeq_bool (Decimal.fix_ q) q.

(** The running sums [s + x], [s + 2x], ..., [s + nx] are exact. *)
Definition exact_sums (s x : Q) (n : nat) : Prop :=
  forall k, (1 <= k <= n)%nat -> exact (s + inject_Z (Z.of_nat k) * x).

Definition exact_sumsb (s x : Q) (n : nat) : bool :=
  forallb (fun k => exactb (s + inject_Z (Z.of_nat k) * x)) (seq 1 n).

(** A call that the owner of a battery makes on it. *)
Inductive call : Type := Charge | Discharge | Idle | Increment.

Definition perform (c : call) : Exec Battery unit :=
  match c with
  | Charge => Battery.charge
  | Discharge => Battery.discharge
  | Idle => Battery.idle
  | Increment => Battery.increment
  end.

(** The battery after a sequence of calls, made by a caller that goes on
    with the next call when one raises. *)
Definition run (cs : list call) (b : Battery) : Battery :=
  fold_left (fun b c => after (perform c) b) cs b.

(** The number of [increment()] calls in a sequence. *)
Definition ticks (cs : list call) : nat :=
  List.length
    (filter (fun c => match c with Increment => true | _ => false end) cs).

(** One tick of the simulation on a site: [increment()] is called on every
    battery of the site. *)
Definition tick (s : Site) : Site :=
  mkSite (site_id s) (location s) (map (after Battery.increment) (batteries s)).

(** * Properties *)

(** ** Rounding to the decimal context *)

Section DecimalFacts.

Import Decimal.

Lemma digits_aux_spec (fuel : nat) (n : Z) :
  (0 < n)%Z -> (n < 10 ^ (Z.of_nat fuel + 1))%Z ->
  (1 <= digits_aux fuel n)%Z /\
  (10 ^ (digits_aux fuel n - 1) <= n < 10 ^ digits_aux fuel n)%Z.
Proof.
  revert n. induction fuel as [|fuel IH]; intros n Hpos Hlt.
  - simpl in *. split; [lia|]. simpl. lia.
  - cbn [digits_aux]. destruct (n <? 10)%Z eqn:E.
    + apply Z.ltb_lt in E. split; [lia|]. simpl. lia.
    + apply Z.ltb_ge in E.
      assert (Hq : (0 < n / 10)%Z) by (apply Z.div_str_pos; lia).
      assert (Hlt' : (n / 10 < 10 ^ (Z.of_nat fuel + 1))%Z).
      { apply Z.div_lt_upper_bound; [lia|].
        replace (Z.of_nat (S fuel) + 1)%Z with (Z.succ (Z.of_nat fuel + 1)) in Hlt by lia.
        rewrite Z.pow_succ_r in Hlt by lia. exact Hlt. }
      destruct (IH (n / 10)%Z Hq Hlt') as [H1 [Hlo Hhi]].
      set (d := digits_aux fuel (n / 10)) in *.
      split; [lia|].
      replace (1 + d - 1)%Z with (Z.succ (d - 1)) by lia.
      replace (1 + d)%Z with (Z.succ d) by lia.
      rewrite !Z.pow_succ_r by lia.
      pose proof (Z.div_mod n 10 ltac:(lia)) as Hdm.
      pose proof (Z.mod_pos_bound n 10 ltac:(lia)) as Hm.
      lia.
Qed.

Lemma digits_spec (n : Z) :
  (0 < n)%Z ->
  (1 <= digits n)%Z /\ (10 ^ (digits n - 1) <= n < 10 ^ digits n)%Z.
Proof.
  intros Hpos. unfold digits. apply digits_aux_spec; [exact Hpos|].
  rewrite Z2Nat.id by apply Z.log2_nonneg.
  destruct (Z.log2_spec n Hpos) as [_ H].
  eapply Z.lt_le_trans; [exact H|].
  rewrite <- Z.add_1_r.
  apply Z.pow_le_mono_l. lia.
Qed.

Lemma pow10_pos (e : Z) : 0 < pow10 e.
Proof. apply Qpower_0_lt. reflexivity. Qed.

Lemma pow10_plus (a b : Z) : pow10 (a + b) == pow10 a * pow10 b.
Proof. apply Qpower_plus. intros H. discriminate. Qed.

Lemma pow10_le (a b : Z) : (a <= b)%Z -> pow10 a <= pow10 b.
Proof. intros H. apply Qpower_le_compat_l; [exact H|]. discriminate. Qed.

Lemma pow10_lt (a b : Z) : (a < b)%Z -> pow10 a < pow10 b.
Proof. intros H. apply Qpower_lt_compat_l; [exact H|]. reflexivity. Qed.

Lemma pow10_Z (n : Z) : (0 <= n)%Z -> pow10 n == inject_Z (10 ^ n).
Proof. intros H. symmetry. apply (Zpower_Qpower 10 n H). Qed.

Lemma inject_Z_digits (n : Z) :
  (0 < n)%Z ->
  pow10 (digits n - 1) <= inject_Z n /\ inject_Z n < pow10 (digits n).
Proof.
  intros Hpos. destruct (digits_spec n Hpos) as [H1 [Hlo Hhi]].
  rewrite !pow10_Z by lia. split.
  - rewrite <- Zle_Qle. exact Hlo.
  - rewrite <- Zlt_Qlt. exact Hhi.
Qed.

Lemma Qpos_num (q : Q) : 0 < q -> (0 < Qnum q)%Z.
Proof. unfold Qlt. simpl. lia. Qed.

Lemma ratio_bounds (q : Q) :
  0 < q ->
  let c := (digits (Qnum q) - digits (Zpos (Qden q)))%Z in
  pow10 (c - 1) <= q /\ q < pow10 (c + 1).
Proof.
  intros Hq c.
  destruct (inject_Z_digits (Qnum q) (Qpos_num q Hq)) as [Hnlo Hnhi].
  destruct (inject_Z_digits (Zpos (Qden q)) eq_refl) as [Hdlo Hdhi].
  assert (Hd : 0 < inject_Z (Zpos (Qden q))) by reflexivity.
  assert (Eq : q == inject_Z (Qnum q) / inject_Z (Zpos (Qden q))).
  { destruct q as [n d]. simpl. apply Qmake_Qdiv. }
  split.
  - rewrite Eq. apply Qle_shift_div_l; [exact Hd|].
    apply Qle_trans with (pow10 (digits (Qnum q) - 1)); [|exact Hnlo].
    replace (digits (Qnum q) - 1)%Z
      with ((c - 1) + digits (Zpos (Qden q)))%Z by (unfold c; lia).
    rewrite pow10_plus. apply Qmult_le_l; [apply pow10_pos|].
    apply Qlt_le_weak. exact Hdhi.
  - rewrite Eq. apply Qlt_shift_div_r; [exact Hd|].
    apply Qlt_le_trans with (pow10 (digits (Qnum q))); [exact Hnhi|].
    replace (digits (Qnum q))
      with ((c + 1) + (digits (Zpos (Qden q)) - 1))%Z at 1 by (unfold c; lia).
    rewrite pow10_plus. apply Qmult_le_l; [apply pow10_pos|]. exact Hdlo.
Qed.

Lemma adjusted_spec (q : Q) :
  0 < q -> pow10 (adjusted q) <= q /\ q < pow10 (adjusted q + 1).
Proof.
  intros Hq. destruct (ratio_bounds q Hq) as [Hlo Hhi].
  unfold adjusted.
  set (c := (digits (Qnum q) - digits (Zpos (Qden q)))%Z) in *.
  destruct (Qle_bool (pow10 c) q) eqn:E.
  - apply Qle_bool_iff in E. split; [exact E|exact Hhi].
  - split; [exact Hlo|].
    replace (c - 1 + 1)%Z with c by lia.
    apply Qnot_le_lt. intros H. apply Qle_bool_iff in H. congruence.
Qed.

Lemma adjusted_unique (q : Q) (a : Z) :
  0 < q -> pow10 a <= q -> q < pow10 (a + 1) -> adjusted q = a.
Proof.
  intros Hq Hlo Hhi. destruct (adjusted_spec q Hq) as [Hlo' Hhi'].
  assert (H1 : (a < adjusted q + 1)%Z).
  { apply (Qpower_lt_compat_l_inv 10); [|reflexivity].
    apply Qle_lt_trans with q; assumption. }
  assert (H2 : (adjusted q < a + 1)%Z).
  { apply (Qpower_lt_compat_l_inv 10); [|reflexivity].
    apply Qle_lt_trans with q; assumption. }
  lia.
Qed.

Lemma adjusted_mono (x y : Q) :
  0 < x -> x <= y -> (adjusted x <= adjusted y)%Z.
Proof.
  intros Hx Hxy.
  assert (Hy : 0 < y) by (apply Qlt_le_trans with x; assumption).
  destruct (adjusted_spec x Hx) as [Hlo _].
  destruct (adjusted_spec y Hy) as [_ Hhi].
  assert (H : (adjusted x < adjusted y + 1)%Z).
  { apply (Qpower_lt_compat_l_inv 10); [|reflexivity].
    apply Qle_lt_trans with x; [exact Hlo|].
    apply Qle_lt_trans with y; assumption. }
  lia.
Qed.

Lemma adjusted_comp (x y : Q) : 0 < x -> x == y -> adjusted x = adjusted y.
Proof.
  intros Hx E. symmetry.
  destruct (adjusted_spec x Hx) as [Hlo Hhi].
  apply adjusted_unique; rewrite <- E; assumption.
Qed.

(** Rounding a rational to an integer, ties to even. *)

Lemma round_half_even_comp (x y : Q) :
  x == y -> round_half_even x = round_half_even y.
Proof.
  intros E. unfold round_half_even.
  rewrite (Qfloor_comp x y E).
  assert (E' : x - inject_Z (Qfloor y) == y - inject_Z (Qfloor y))
    by (rewrite E; reflexivity).
  rewrite (Qcompare_comp _ _ E' (1 # 2) (1 # 2) (Qeq_refl _)).
  reflexivity.
Qed.

Lemma round_half_even_Z (z : Z) : round_half_even (inject_Z z) = z.
Proof.
  unfold round_half_even. rewrite Qfloor_Z.
  destruct (Qcompare_spec (inject_Z z - inject_Z z) (1 # 2)) as [E|E|E];
    [exfalso; lra|reflexivity|exfalso; lra].
Qed.

Lemma round_half_even_floor (x : Q) :
  (Qfloor x <= round_half_even x <= Qfloor x + 1)%Z.
Proof.
  unfold round_half_even.
  destruct (Qcompare _ _); [destruct (Z.even _)| |]; lia.
Qed.

Lemma round_half_even_mono (x y : Q) :
  x <= y -> (round_half_even x <= round_half_even y)%Z.
Proof.
  intros H. pose proof (Qfloor_resp_le x y H) as Hf.
  destruct (Z.eq_dec (Qfloor x) (Qfloor y)) as [E|NE].
  - unfold round_half_even. rewrite <- E.
    destruct (Qcompare_spec (x - inject_Z (Qfloor x)) (1 # 2)) as [Ex|Ex|Ex];
    destruct (Qcompare_spec (y - inject_Z (Qfloor x)) (1 # 2)) as [Ey|Ey|Ey];
    destruct (Z.even (Qfloor x)); try lia; exfalso; lra.
  - pose proof (round_half_even_floor x). pose proof (round_half_even_floor y).
    lia.
Qed.

Lemma round_half_even_ge (x : Q) (z : Z) :
  inject_Z z <= x -> (z <= round_half_even x)%Z.
Proof.
  intros H. rewrite <- (round_half_even_Z z). apply round_half_even_mono. exact H.
Qed.

Lemma round_half_even_le (x : Q) (z : Z) :
  x <= inject_Z z -> (round_half_even x <= z)%Z.
Proof.
  intros H. rewrite <- (round_half_even_Z z). apply round_half_even_mono. exact H.
Qed.

(** Rounding a positive rational to [prec] digits. *)

Lemma scaled_bounds (q : Q) :
  0 < q ->
  let e := (adjusted q - (prec - 1))%Z in
  pow10 (prec - 1) <= q / pow10 e /\ q / pow10 e <= pow10 prec.
Proof.
  intros Hq e. destruct (adjusted_spec q Hq) as [Hlo Hhi].
  split.
  - apply Qle_shift_div_l; [apply pow10_pos|].
    rewrite <- pow10_plus.
    replace (prec - 1 + e)%Z with (adjusted q) by (unfold e; lia). exact Hlo.
  - apply Qle_shift_div_r; [apply pow10_pos|].
    rewrite <- pow10_plus.
    replace (prec + e)%Z with (adjusted q + 1)%Z by (unfold e; lia).
    apply Qlt_le_weak. exact Hhi.
Qed.

Lemma round_pos_bounds (q : Q) :
  0 < q ->
  pow10 (adjusted q) <= round_pos q /\ round_pos q <= pow10 (adjusted q + 1).
Proof.
  intros Hq. destruct (scaled_bounds q Hq) as [Hlo Hhi].
  unfold round_pos. set (e := (adjusted q - (prec - 1))%Z) in *.
  rewrite (pow10_Z (prec - 1)) in Hlo by (unfold prec; lia).
  rewrite (pow10_Z prec) in Hhi by (unfold prec; lia).
  apply round_half_even_ge in Hlo. apply round_half_even_le in Hhi.
  split.
  - replace (adjusted q) with ((prec - 1) + e)%Z at 1 by (unfold e; lia).
    rewrite pow10_plus. apply Qmult_le_compat_r; [|apply Qlt_le_weak, pow10_pos].
    rewrite (pow10_Z (prec - 1)) by (unfold prec; lia).
    rewrite <- Zle_Qle. exact Hlo.
  - replace (adjusted q + 1)%Z with (prec + e)%Z by (unfold e; lia).
    rewrite pow10_plus. apply Qmult_le_compat_r; [|apply Qlt_le_weak, pow10_pos].
    rewrite (pow10_Z prec) by (unfold prec; lia).
    rewrite <- Zle_Qle. exact Hhi.
Qed.

Lemma round_pos_pos (q : Q) : 0 < q -> 0 < round_pos q.
Proof.
  intros Hq. apply Qlt_le_trans with (pow10 (adjusted q)).
  - apply pow10_pos.
  - apply round_pos_bounds. exact Hq.
Qed.

Lemma round_pos_comp (x y : Q) : 0 < x -> x == y -> round_pos x == round_pos y.
Proof.
  intros Hx E. unfold round_pos. rewrite <- (adjusted_comp x y Hx E).
  rewrite (round_half_even_comp (x / pow10 (adjusted x - (prec - 1)))
                                (y / pow10 (adjusted x - (prec - 1)))).
  - reflexivity.
  - apply Qdiv_comp; [exact E|reflexivity].
Qed.

Lemma round_pos_mono (x y : Q) :
  0 < x -> x <= y -> round_pos x <= round_pos y.
Proof.
  intros Hx Hxy.
  assert (Hy : 0 < y) by (apply Qlt_le_trans with x; assumption).
  pose proof (adjusted_mono x y Hx Hxy) as Ha.
  destruct (Z.eq_dec (adjusted x) (adjusted y)) as [E|NE].
  - unfold round_pos. rewrite <- E.
    apply Qmult_le_compat_r; [|apply Qlt_le_weak, pow10_pos].
    rewrite <- Zle_Qle. apply round_half_even_mono.
    apply Qmult_le_compat_r; [exact Hxy|].
    apply Qlt_le_weak, Qinv_lt_0_compat, pow10_pos.
  - apply Qle_trans with (pow10 (adjusted x + 1)).
    + apply round_pos_bounds. exact Hx.
    + apply Qle_trans with (pow10 (adjusted y)).
      * apply pow10_le. lia.
      * apply round_pos_bounds. exact Hy.
Qed.

(** Rounding to the context. *)

Lemma fix_comp (x y : Q) : x == y -> fix_ x = fix_ y.
Proof.
  intros E. unfold fix_. rewrite (Qred_complete x y E). reflexivity.
Qed.

Lemma fix_zero (q : Q) : q == 0 -> fix_ q = 0.
Proof. intros E. rewrite (fix_comp q 0 E). reflexivity. Qed.

Lemma fix_pos (q : Q) : 0 < q -> fix_ q == round_pos q.
Proof.
  intros Hq. unfold fix_.
  assert (Hr : 0 < Qred q) by (rewrite Qred_correct; exact Hq).
  pose proof (Qpos_num _ Hr) as Hn.
  destruct (Qnum (Qred q)) eqn:E; try lia.
  rewrite Qred_correct. apply round_pos_comp; [exact Hr|apply Qred_correct].
Qed.

Lemma fix_neg (q : Q) : q < 0 -> fix_ q == - round_pos (- q).
Proof.
  intros Hq. unfold fix_.
  assert (Hr : Qred q < 0) by (rewrite Qred_correct; exact Hq).
  assert (Hn : (Qnum (Qred q) < 0)%Z).
  { unfold Qlt in Hr. simpl in Hr. lia. }
  destruct (Qnum (Qred q)) eqn:E; try lia.
  rewrite Qred_correct. apply Qopp_comp. apply round_pos_comp.
  - lra.
  - rewrite Qred_correct. reflexivity.
Qed.

Lemma fix_sign_pos (q : Q) : 0 < q -> 0 < fix_ q.
Proof. intros Hq. rewrite (fix_pos q Hq). apply round_pos_pos. exact Hq. Qed.

Lemma fix_sign_neg (q : Q) : q < 0 -> fix_ q < 0.
Proof.
  intros Hq. rewrite (fix_neg q Hq).
  assert (0 < round_pos (- q)) by (apply round_pos_pos; lra). lra.
Qed.

Lemma fix_eq_0 (q : Q) : fix_ q == 0 <-> q == 0.
Proof.
  split.
  - intros H. destruct (Qcompare_spec q 0) as [E|L|G]; [exact E| |].
    + pose proof (fix_sign_neg q L). lra.
    + pose proof (fix_sign_pos q G). lra.
  - intros E. rewrite (fix_zero q E). reflexivity.
Qed.

Lemma fix_mono (x y : Q) : x <= y -> fix_ x <= fix_ y.
Proof.
  intros H.
  destruct (Qcompare_spec x 0) as [Ex|Lx|Gx].
  - rewrite (fix_zero x Ex).
    destruct (Qcompare_spec y 0) as [Ey|Ly|Gy].
    + rewrite (fix_zero y Ey). apply Qle_refl.
    + exfalso. lra.
    + apply Qlt_le_weak, fix_sign_pos. exact Gy.
  - destruct (Qcompare_spec y 0) as [Ey|Ly|Gy].
    + rewrite (fix_zero y Ey). apply Qlt_le_weak, fix_sign_neg. exact Lx.
    + rewrite (fix_neg x Lx), (fix_neg y Ly).
      apply Qopp_le_compat. apply round_pos_mono; lra.
    + apply Qlt_le_weak. apply Qlt_trans with 0.
      * apply fix_sign_neg. exact Lx.
      * apply fix_sign_pos. exact Gy.
  - rewrite (fix_pos x Gx), (fix_pos y) by lra.
    apply round_pos_mono; assumption.
Qed.

Lemma fix_opp (q : Q) : fix_ (- q) == - fix_ q.
Proof.
  destruct (Qcompare_spec q 0) as [E|L|G].
  - rewrite (fix_zero q E), (fix_zero (- q)) by lra. reflexivity.
  - rewrite (fix_neg q L), (fix_pos (- q)) by lra. ring.
  - rewrite (fix_pos q G), (fix_neg (- q)) by lra.
    apply Qopp_comp. apply round_pos_comp; [lra|ring].
Qed.

(** Values of at most [prec] digits are not changed. *)

Lemma round_pos_representable (q : Q) (m e : Z) :
  (10 ^ (prec - 1) <= m < 10 ^ prec)%Z ->
  q == inject_Z m * pow10 e ->
  round_pos q == q.
Proof.
  intros [Hlo Hhi] E.
  assert (Hm : 0 < inject_Z m).
  { change 0 with (inject_Z 0). rewrite <- Zlt_Qlt.
    assert (0 < 10 ^ (prec - 1))%Z by (apply Z.pow_pos_nonneg; unfold prec; lia).
    lia. }
  assert (Hq : 0 < q).
  { rewrite E. apply Qmult_lt_0_compat; [exact Hm|apply pow10_pos]. }
  assert (Ha : adjusted q = (prec - 1 + e)%Z).
  { apply adjusted_unique; [exact Hq| |].
    - rewrite E, pow10_plus. apply Qmult_le_compat_r;
        [|apply Qlt_le_weak, pow10_pos].
      rewrite pow10_Z by (unfold prec; lia). rewrite <- Zle_Qle. exact Hlo.
    - rewrite E. replace (prec - 1 + e + 1)%Z with (prec + e)%Z by lia.
      rewrite pow10_plus. apply Qmult_lt_compat_r; [apply pow10_pos|].
      rewrite pow10_Z by (unfold prec; lia). rewrite <- Zlt_Qlt. exact Hhi. }
  unfold round_pos. rewrite Ha.
  replace (prec - 1 + e - (prec - 1))%Z with e by lia.
  rewrite (round_half_even_comp (q / pow10 e) (inject_Z m)).
  - rewrite round_half_even_Z. symmetry. exact E.
  - rewrite E. field. intros H. pose proof (pow10_pos e). lra.
Qed.

Lemma round_pos_idem (q : Q) : 0 < q -> round_pos (round_pos q) == round_pos q.
Proof.
  intros Hq. destruct (scaled_bounds q Hq) as [Hlo Hhi].
  set (e := (adjusted q - (prec - 1))%Z) in *.
  set (M := round_half_even (q / pow10 e)).
  assert (HM : (10 ^ (prec - 1) <= M <= 10 ^ prec)%Z).
  { rewrite (pow10_Z (prec - 1)) in Hlo by (unfold prec; lia).
    rewrite (pow10_Z prec) in Hhi by (unfold prec; lia).
    split; [apply round_half_even_ge|apply round_half_even_le]; assumption. }
  assert (E : round_pos q == inject_Z M * pow10 e) by reflexivity.
  destruct (Z.eq_dec M (10 ^ prec)) as [Emax|Hne].
  - apply (round_pos_representable _ (10 ^ (prec - 1)) (e + 1)).
    + unfold prec. simpl. lia.
    + rewrite E, Emax.
      rewrite <- !pow10_Z by (unfold prec; lia).
      rewrite <- !pow10_plus.
      replace (prec - 1 + (e + 1))%Z with (prec + e)%Z by lia. reflexivity.
  - apply (round_pos_representable _ M e); [lia|exact E].
Qed.

Lemma fix_idem (q : Q) : fix_ (fix_ q) == fix_ q.
Proof.
  destruct (Qcompare_spec q 0) as [E|L|G].
  - rewrite (fix_zero q E). reflexivity.
  - rewrite (fix_comp _ _ (fix_neg q L)), fix_opp, (fix_neg q L).
    apply Qopp_comp.
    assert (H : 0 < round_pos (- q)) by (apply round_pos_pos; lra).
    rewrite (fix_pos _ H). apply round_pos_idem. lra.
  - rewrite (fix_comp _ _ (fix_pos q G)).
    assert (H : 0 < round_pos q) by (apply round_pos_pos; exact G).
    rewrite (fix_pos _ H), (fix_pos q G). apply round_pos_idem. exact G.
Qed.

End DecimalFacts.

(** ** Sums *)

Lemma sum_snoc (l : list Q) (x : Q) :
  sum (l ++ [x]) = Decimal.add (sum l) x.
Proof. unfold sum. rewrite fold_left_app. reflexivity. Qed.

(** ** Battery.charge and Battery.discharge *)

Lemma charge_full (b : Battery) :
  Battery.current_capacity b == Battery.energy_capacity b ->
  Battery.charge b =
    (Raise (BatteryFullError
              (battery_id b ++ " - Battery is full and cannot charge")%string), b).
Proof.
  intros H. apply Qeq_bool_iff in H.
  unfold Battery.charge, bind, get. rewrite H. reflexivity.
Qed.

Lemma charge_not_full (b : Battery) :
  ~ Battery.current_capacity b == Battery.energy_capacity b ->
  Battery.charge b = (Ok tt, with_state CHARGING b).
Proof.
  intros H. unfold Battery.charge, bind, get.
  destruct (Qeq_bool _ _) eqn:E.
  - apply Qeq_bool_iff in E. contradiction.
  - reflexivity.
Qed.

Lemma discharge_empty (b : Battery) :
  Battery.current_capacity b == 0 ->
  Battery.discharge b =
    (Raise (BatteryEmptyError
              (battery_id b ++ " Battery is empty and cannot discharge")%string), b).
Proof.
  intros H. apply Qeq_bool_iff in H.
  unfold Battery.discharge, bind, get. rewrite H. reflexivity.
Qed.

Lemma discharge_not_empty (b : Battery) :
  ~ Battery.current_capacity b == 0 ->
  Battery.discharge b = (Ok tt, with_state DISCHARGING b).
Proof.
  intros H. unfold Battery.discharge, bind, get.
  destruct (Qeq_bool _ _) eqn:E.
  - apply Qeq_bool_iff in E. contradiction.
  - reflexivity.
Qed.

(** C5.  [charge()] raises [BatteryFullError] exactly when
    [current_capacity == energy_capacity], and then the battery (its state,
    inputs and outputs) is as before; otherwise it succeeds and the only
    change is that the state is [CHARGING], whatever it was.  [discharge()]
    raises [BatteryEmptyError] exactly when [current_capacity == 0], with the
    battery as before, and otherwise only sets the state to [DISCHARGING]. *)
Theorem charge_discharge_spec (b : Battery) :
  ((exists msg b', Battery.charge b = (Raise (BatteryFullError msg), b')) <->
   Battery.current_capacity b == Battery.energy_capacity b) /\
  (Battery.current_capacity b == Battery.energy_capacity b ->
   snd (Battery.charge b) = b) /\
  (~ Battery.current_capacity b == Battery.energy_capacity b ->
   Battery.charge b = (Ok tt, with_state CHARGING b)) /\
  ((exists msg b', Battery.discharge b = (Raise (BatteryEmptyError msg), b')) <->
   Battery.current_capacity b == 0) /\
  (Battery.current_capacity b == 0 ->
   snd (Battery.discharge b) = b) /\
  (~ Battery.current_capacity b == 0 ->
   Battery.discharge b = (Ok tt, with_state DISCHARGING b)).
Proof.
  repeat split.
  - intros (msg & b' & H).
    destruct (Qeq_dec (Battery.current_capacity b) (Battery.energy_capacity b))
      as [E|E]; [exact E|].
    rewrite (charge_not_full b E) in H. discriminate.
  - intros E. rewrite (charge_full b E). eauto.
  - intros E. rewrite (charge_full b E). reflexivity.
  - apply charge_not_full.
  - intros (msg & b' & H).
    destruct (Qeq_dec (Battery.current_capacity b) 0) as [E|E]; [exact E|].
    rewrite (discharge_not_empty b E) in H. discriminate.
  - intros E. rewrite (discharge_empty b E). eauto.
  - intros E. rewrite (discharge_empty b E). reflexivity.
  - apply discharge_not_empty.
Qed.

Lemma charge_discharge_spec_witness :
  snd (Battery.charge grid_battery) = grid_battery /\
  Battery.charge grid_battery_after_one_tick =
    (Ok tt, with_state CHARGING grid_battery_after_one_tick) /\
  snd (Battery.discharge (with_outputs [5000] grid_battery)) =
    with_outputs [5000] grid_battery /\
  Battery.discharge grid_battery = (Ok tt, with_state DISCHARGING grid_battery).
Proof.
  split; [|split; [|split]].
  - apply (charge_discharge_spec grid_battery). reflexivity.
  - apply (charge_discharge_spec grid_battery_after_one_tick).
    intros H. vm_compute in H. discriminate.
  - apply (charge_discharge_spec (with_outputs [5000] grid_battery)).
    reflexivity.
  - apply (charge_discharge_spec grid_battery).
    intros H. vm_compute in H. discriminate.
Defined.

(** ** Battery.increment *)

Lemma increment_charging (b : Battery) :
  Battery.state b = CHARGING ->
  Battery.increment b =
    (Ok tt, with_inputs
              (battery_inputs b ++ [Decimal.truediv (Battery.power_capacity b) 60])
              b).
Proof.
  intros H. unfold Battery.increment, bind, get. rewrite H. reflexivity.
Qed.

Lemma increment_discharging (b : Battery) :
  Battery.state b = DISCHARGING ->
  Battery.increment b =
    (Ok tt, with_outputs
              (battery_outputs b ++ [Decimal.truediv (Battery.power_capacity b) 60])
              b).
Proof.
  intros H. unfold Battery.increment, bind, get. rewrite H. reflexivity.
Qed.

Lemma increment_idle (b : Battery) :
  Battery.state b = IDLE -> Battery.increment b = (Ok tt, b).
Proof.
  intros H. unfold Battery.increment, bind, get. rewrite H. reflexivity.
Qed.

(** Counterexample to C6 as claimed.  A grid battery that has discharged
    for one tick and charged for one tick has energy capacity 5000, power
    capacity 2500 and current capacity 5000 again.  It accepts [discharge()],
    and after one [increment()] its current capacity is
    4958.333333333333333333333334, which is neither the rational
    [5000 - 2500/60] nor that expression computed in the decimal context. *)
Lemma increment_scenario_depends_on_history :
  let b := after Battery.increment
             (after Battery.charge grid_battery_after_one_tick) in
  Battery.energy_capacity b == 5000 /\
  Battery.power_capacity b == 2500 /\
  Battery.current_capacity b == 5000 /\
  exists b1 b2,
    Battery.discharge b = (Ok tt, b1) /\
    Battery.increment b1 = (Ok tt, b2) /\
    Battery.current_capacity b2 == 4958.333333333333333333333334 /\
    ~ Battery.current_capacity b2 == 5000 - 2500 / 60 /\
    ~ Battery.current_capacity b2 ==
        Decimal.sub 5000 (Decimal.truediv 2500 60).
Proof.
  intros b.
  split; [reflexivity|]. split; [reflexivity|].
  split; [vm_compute; reflexivity|].
  eexists. eexists.
  split; [vm_compute; reflexivity|].
  split; [vm_compute; reflexivity|].
  split; [vm_compute; reflexivity|].
  split; intros H; vm_compute in H; discriminate.
Qed.

(** C6 (amended).  One [increment()] appends the decimal quotient
    [power_capacity / 60] (rounded to the 28 digits of the context) to the
    inputs when the state is [CHARGING], appends it to the outputs when the
    state is [DISCHARGING], and leaves both sequences (and the whole battery)
    as they are when it is [IDLE].  A battery with [energy_capacity = 5000]
    and [power_capacity = 2500] whose inputs add up to 5000 and whose outputs
    add up to 0, as those of a new grid battery do, accepts [discharge()],
    and after one [increment()] its [current_capacity] is [5000 - 2500/60]
    computed in the decimal context, 4958.333333333333333333333333. *)
Theorem increment_spec (b : Battery) :
  (Battery.state b = CHARGING ->
   Battery.increment b =
     (Ok tt, with_inputs
               (battery_inputs b ++ [Decimal.truediv (Battery.power_capacity b) 60])
               b)) /\
  (Battery.state b = DISCHARGING ->
   Battery.increment b =
     (Ok tt, with_outputs
               (battery_outputs b ++ [Decimal.truediv (Battery.power_capacity b) 60])
               b)) /\
  (Battery.state b = IDLE -> Battery.increment b = (Ok tt, b)) /\
  (Battery.energy_capacity b == 5000 ->
   Battery.power_capacity b == 2500 ->
   sum (battery_inputs b) == 5000 ->
   sum (battery_outputs b) == 0 ->
   exists b1 b2,
     Battery.discharge b = (Ok tt, b1) /\
     Battery.increment b1 = (Ok tt, b2) /\
     Battery.current_capacity b2 ==
       Decimal.sub 5000 (Decimal.truediv 2500 60) /\
     Battery.current_capacity b2 == 4958.333333333333333333333333).
Proof.
  split; [apply increment_charging|].
  split; [apply increment_discharging|].
  split; [apply increment_idle|].
  intros He Hp Hi Ho.
  assert (Hne : ~ Battery.current_capacity b == 0).
  { unfold Battery.current_capacity, Decimal.sub.
    rewrite (fix_comp _ (5000 - 0)) by (rewrite Hi, Ho; reflexivity).
    intros H. vm_compute in H. discriminate. }
  exists (with_state DISCHARGING b).
  exists (with_outputs
            (battery_outputs b ++ [Decimal.truediv (Battery.power_capacity b) 60])
            (with_state DISCHARGING b)).
  split; [apply discharge_not_empty; exact Hne|].
  split; [exact (increment_discharging (with_state DISCHARGING b) eq_refl)|].
  assert (E : Battery.current_capacity
                (with_outputs
                   (battery_outputs b ++
                    [Decimal.truediv (Battery.power_capacity b) 60])
                   (with_state DISCHARGING b)) =
              Decimal.sub 5000 (Decimal.truediv 2500 60)).
  { unfold Battery.current_capacity. simpl battery_inputs. simpl battery_outputs.
    rewrite sum_snoc. unfold Battery.power_capacity in *.
    unfold Decimal.truediv at 1.
    rewrite (fix_comp (_power_capacity b / 60) (2500 / 60))
      by (rewrite Hp; reflexivity).
    unfold Decimal.add.
    rewrite (fix_comp (sum (battery_outputs b) + Decimal.fix_ (2500 / 60))
                      (0 + Decimal.fix_ (2500 / 60)))
      by (rewrite Ho; reflexivity).
    unfold Decimal.sub at 1.
    rewrite (fix_comp (sum (battery_inputs b) - Decimal.fix_ (0 + Decimal.fix_ (2500 / 60)))
                      (5000 - Decimal.fix_ (0 + Decimal.fix_ (2500 / 60))))
      by (rewrite Hi; reflexivity).
    vm_compute. reflexivity. }
  rewrite E. split; [reflexivity|]. vm_compute. reflexivity.
Qed.

Lemma increment_spec_witness :
  Battery.increment (with_state CHARGING grid_battery_after_one_tick) =
    (Ok tt, with_inputs [5000; Decimal.truediv 2500 60]
              (with_state CHARGING grid_battery_after_one_tick)) /\
  Battery.increment (with_state DISCHARGING grid_battery) =
    (Ok tt, with_outputs [0; Decimal.truediv 2500 60]
              (with_state DISCHARGING grid_battery)) /\
  Battery.increment grid_battery = (Ok tt, grid_battery) /\
  exists b1 b2,
    Battery.discharge grid_battery = (Ok tt, b1) /\
    Battery.increment b1 = (Ok tt, b2) /\
    Battery.current_capacity b2 ==
      Decimal.sub 5000 (Decimal.truediv 2500 60) /\
    Battery.current_capacity b2 == 4958.333333333333333333333333.
Proof.
  split; [|split; [|split]].
  - apply (increment_spec (with_state CHARGING grid_battery_after_one_tick)).
    reflexivity.
  - apply (increment_spec (with_state DISCHARGING grid_battery)). reflexivity.
  - apply (increment_spec grid_battery). reflexivity.
  - apply (increment_spec grid_battery); vm_compute; reflexivity.
Defined.

(** ** Charging from empty *)

Lemma times_increment_charging (n : nat) (b : Battery) :
  Battery.state b = CHARGING ->
  exists b',
    times n Battery.increment b = (Ok tt, b') /\
    Battery.state b' = CHARGING /\
    Battery.energy_capacity b' = Battery.energy_capacity b /\
    Battery.power_capacity b' = Battery.power_capacity b /\
    battery_id b' = battery_id b /\
    battery_outputs b' = battery_outputs b /\
    battery_inputs b' =
      battery_inputs b ++
      repeat (Decimal.truediv (Battery.power_capacity b) 60) n.
Proof.
  revert b. induction n as [|n IH]; intros b Hs.
  - exists b. simpl. rewrite app_nil_r. repeat split; assumption.
  - set (b1 := with_inputs
                 (battery_inputs b ++
                  [Decimal.truediv (Battery.power_capacity b) 60]) b).
    destruct (IH b1) as (b' & Hrun & Hs' & He & Hp & Hd & Ho & Hi);
      [exact Hs|].
    exists b'. split.
    { simpl. unfold bind. rewrite (increment_charging b Hs). exact Hrun. }
    repeat split; try assumption.
    rewrite Hi. unfold b1. simpl. rewrite <- app_assoc. reflexivity.
Qed.

(** When every running sum is exact, the decimal sum of a history extended
    by [n] equal entries is the exact one. *)
Lemma sum_app_repeat_exact (l : list Q) (x : Q) (n : nat) :
  exact_sums (sum l) x n ->
  sum (l ++ repeat x n) == sum l + inject_Z (Z.of_nat n) * x.
Proof.
  induction n as [|n IH]; intros H.
  - simpl. rewrite app_nil_r. change (inject_Z 0) with 0. ring.
  - change (repeat x (S n)) with (x :: repeat x n).
    rewrite repeat_cons, app_assoc, sum_snoc.
    assert (Hn : exact_sums (sum l) x n).
    { intros k Hk. apply H. lia. }
    unfold Decimal.add.
    rewrite (fix_comp _ (sum l + inject_Z (Z.of_nat (S n)) * x)).
    + apply H. lia.
    + rewrite (IH Hn), Nat2Z.inj_succ. unfold Z.succ.
      rewrite inject_Z_plus. change (inject_Z 1) with 1. ring.
Qed.

Lemma exact_comp (x y : Q) : x == y -> exact x -> exact y.
Proof.
  unfold exact. intros E H. rewrite <- (fix_comp x y E), H. exact E.
Qed.

Lemma exact_sums_comp (s x y : Q) (n : nat) :
  x == y -> exact_sums s x n -> exact_sums s y n.
Proof.
  intros E H k Hk. apply (exact_comp (s + inject_Z (Z.of_nat k) * x)).
  - rewrite E. reflexivity.
  - apply H. exact Hk.
Qed.

Lemma exactb_correct (q : Q) : exactb q = true -> exact q.
Proof. apply Qeq_bool_iff. Qed.

Lemma exact_sumsb_correct (s x : Q) (n : nat) :
  exact_sumsb s x n = true -> exact_sums s x n.
Proof.
  unfold exact_sumsb. rewrite forallb_forall. intros H k Hk.
  apply exactb_correct. apply H. apply in_seq. lia.
Qed.

(** Counterexample to C7 as claimed.  A battery with the capacities of a
    grid battery, empty and [CHARGING], has a storage duration of 2 hours.
    After 120 calls of [increment()] its current capacity is
    5000.00000000000000000000004, not its energy capacity, and [charge()] is
    accepted. *)
Lemma charge_from_empty_misses_energy_capacity :
  let b := with_state CHARGING (with_outputs [5000] grid_battery) in
  Battery.current_capacity b == 0 /\
  Battery.state b = CHARGING /\
  Battery.storage_duration b = Ok 2 /\
  60 * 2 == inject_Z (Z.of_nat 120) /\
  exists b',
    times 120 Battery.increment b = (Ok tt, b') /\
    Battery.current_capacity b' == 5000.00000000000000000000004 /\
    ~ Battery.current_capacity b' == Battery.energy_capacity b /\
    fst (Battery.charge b') = Ok tt.
Proof.
  intros b.
  split; [vm_compute; reflexivity|]. split; [reflexivity|].
  split; [vm_compute; reflexivity|]. split; [reflexivity|].
  eexists. split; [vm_compute; reflexivity|].
  split; [vm_compute; reflexivity|].
  split; [intros H; vm_compute in H; discriminate|].
  vm_compute. reflexivity.
Qed.

(** C7 (amended).  A battery that is empty and [CHARGING], incremented
    [60 * storage_duration] times (when that is a whole number [n] of ticks),
    ends with [current_capacity == energy_capacity] when the arithmetic of
    the run is exact, that is, when the decimal context rounds none of its
    results: the initial difference of the histories, the two quotients
    [energy_capacity / power_capacity] and [power_capacity / 60], the [n]
    running sums of the inputs, and the energy capacity itself.  Every call
    succeeds and [n] entries are added to the inputs. *)
Theorem charge_from_empty_round_trip (b : Battery) (d : Q) (n : nat) :
  Battery.current_capacity b == 0 ->
  Battery.state b = CHARGING ->
  Battery.storage_duration b = Ok d ->
  60 * d == inject_Z (Z.of_nat n) ->
  exact (sum (battery_inputs b) - sum (battery_outputs b)) ->
  exact (Battery.energy_capacity b / Battery.power_capacity b) ->
  exact (Battery.power_capacity b / 60) ->
  exact_sums (sum (battery_inputs b)) (Battery.power_capacity b / 60) n ->
  exact (Battery.energy_capacity b) ->
  exists b',
    times n Battery.increment b = (Ok tt, b') /\
    Battery.energy_capacity b' = Battery.energy_capacity b /\
    List.length (battery_inputs b') = (List.length (battery_inputs b) + n)%nat /\
    Battery.current_capacity b' == Battery.energy_capacity b.
Proof.
  intros Hc Hs Hd Hn X0 Xd Xx Xs Xe. unfold exact in X0, Xd, Xx, Xe.
  destruct (times_increment_charging n b Hs)
    as (b' & Hrun & _ & He & _ & _ & Ho & Hi).
  exists b'.
  split; [exact Hrun|]. split; [exact He|].
  split; [rewrite Hi, length_app, repeat_length; reflexivity|].
  unfold Battery.storage_duration, Battery.py_div in Hd.
  destruct (Qeq_bool (Battery.power_capacity b) 0) eqn:Hp0; [discriminate|].
  injection Hd as Hd.
  assert (Hp : ~ Battery.power_capacity b == 0).
  { intros H. apply Qeq_bool_iff in H. congruence. }
  assert (Hd' : d == Battery.energy_capacity b / Battery.power_capacity b).
  { rewrite <- Hd. exact Xd. }
  assert (H0 : sum (battery_inputs b) - sum (battery_outputs b) == 0).
  { rewrite <- X0. exact Hc. }
  assert (Hsum : sum (battery_inputs b') ==
                 sum (battery_inputs b) +
                 inject_Z (Z.of_nat n) * (Battery.power_capacity b / 60)).
  { rewrite Hi.
    rewrite sum_app_repeat_exact.
    - unfold Decimal.truediv. rewrite Xx. reflexivity.
    - apply (exact_sums_comp _ (Battery.power_capacity b / 60)); [|exact Xs].
      symmetry. exact Xx. }
  unfold Battery.current_capacity, Decimal.sub.
  rewrite (fix_comp _ (Battery.energy_capacity b)); [exact Xe|].
  rewrite Ho, Hsum, <- Hn, Hd'.
  setoid_replace
    (sum (battery_inputs b) +
     60 * (Battery.energy_capacity b / Battery.power_capacity b) *
     (Battery.power_capacity b / 60) - sum (battery_outputs b))
    with ((sum (battery_inputs b) - sum (battery_outputs b)) +
          60 * (Battery.energy_capacity b / Battery.power_capacity b) *
          (Battery.power_capacity b / 60)) by ring.
  rewrite H0. field. exact Hp.
Qed.

Lemma charge_from_empty_round_trip_witness :
  let b := mkBattery "abcdfgt" 6000 3000 CHARGING 0 [5000] [5000] in
  exists b',
    times 120 Battery.increment b = (Ok tt, b') /\
    Battery.energy_capacity b' = 6000 /\
    List.length (battery_inputs b') = 121%nat /\
    Battery.current_capacity b' == 6000.
Proof.
  intros b.
  apply (charge_from_empty_round_trip b 2 120).
  - vm_compute. reflexivity.
  - reflexivity.
  - vm_compute. reflexivity.
  - reflexivity.
  - vm_compute. reflexivity.
  - vm_compute. reflexivity.
  - vm_compute. reflexivity.
  - apply exact_sumsb_correct. vm_compute. reflexivity.
  - vm_compute. reflexivity.
Defined.

(** ** GridBattery *)

Lemma init_any_self (self : Battery) :
  GridBattery.__init__ self = (Ok tt, grid_battery).
Proof. reflexivity. Qed.

(** C10.  A freshly constructed [GridBattery] is full and idle: construction
    succeeds, [inputs] is [[5000]] and [outputs] is [[0]], so
    [current_capacity == energy_capacity == 5000] and [state_of_charge == 1];
    [charge()] on it raises [BatteryFullError] and [discharge()] succeeds. *)
Theorem grid_battery_starts_full_and_idle :
  GridBattery.new = Ok grid_battery /\
  (forall self, GridBattery.__init__ self = (Ok tt, grid_battery)) /\
  battery_inputs grid_battery = [5000] /\
  battery_outputs grid_battery = [0] /\
  Battery.state grid_battery = IDLE /\
  Battery.current_capacity grid_battery == Battery.energy_capacity grid_battery /\
  Battery.energy_capacity grid_battery == 5000 /\
  (exists q, Battery.state_of_charge grid_battery = Ok q /\ q == 1) /\
  (exists msg,
     Battery.charge grid_battery = (Raise (BatteryFullError msg), grid_battery)) /\
  Battery.discharge grid_battery = (Ok tt, with_state DISCHARGING grid_battery).
Proof.
  split; [reflexivity|].
  split; [exact init_any_self|].
  split; [reflexivity|].
  split; [reflexivity|].
  split; [reflexivity|].
  split; [reflexivity|].
  split; [reflexivity|].
  split.
  { eexists. split; [reflexivity|]. reflexivity. }
  split.
  { eexists. apply charge_full. reflexivity. }
  apply discharge_not_empty. intros H. vm_compute in H. discriminate.
Qed.

(** ** The capacity setters *)

Lemma Qlt_bool_iff (x y : Q) : Qlt_bool x y = true <-> x < y.
Proof.
  unfold Qlt_bool. rewrite Qlt_alt.
  destruct (x ?= y); split; intros H; try reflexivity; discriminate.
Qed.

Lemma Qlt_bool_false_iff (x y : Q) : Qlt_bool x y = false <-> y <= x.
Proof.
  split.
  - intros H. apply Qnot_lt_le. intros L. apply Qlt_bool_iff in L. congruence.
  - intros H. destruct (Qlt_bool x y) eqn:E; [|reflexivity].
    apply Qlt_bool_iff in E. exfalso. apply (Qlt_not_le _ _ E H).
Qed.

(** Counterexample to C8 as claimed.  Zero is accepted as an energy capacity,
    so [energy_capacity > 0] does not hold after that successful
    assignment. *)
Lemma zero_energy_capacity_is_accepted :
  exists b',
    Battery.energy_capacity_setter 0 grid_battery = (Ok tt, b') /\
    ~ 0 < Battery.energy_capacity b'.
Proof.
  eexists. split; [reflexivity|].
  intros H. vm_compute in H. discriminate.
Qed.

(** C8 (amended).  Assigning a negative energy capacity or a negative power
    capacity raises [ValueError] and assigns nothing.  Every other energy
    capacity is accepted, zero included, so after a successful assignment
    [energy_capacity >= 0] holds and the field is the value given.  A positive
    power capacity is accepted and is then the value of the field, and no
    successful assignment leaves a negative power capacity. *)
Theorem capacity_setters_spec (value : Q) (b : Battery) :
  (value < 0 ->
   Battery.energy_capacity_setter value b =
     (Raise (ValueError "Energy capacity cannot be negative"), b) /\
   Battery.power_capacity_setter value b =
     (Raise (ValueError "Power capacity cannot be zero"), b)) /\
  (0 <= value ->
   exists b',
     Battery.energy_capacity_setter value b = (Ok tt, b') /\
     Battery.energy_capacity b' = value /\
     b' = mkBattery (battery_id b) value (_power_capacity b) (_state b)
                    (cycle_rate b) (battery_inputs b) (battery_outputs b)) /\
  (forall b', Battery.energy_capacity_setter value b = (Ok tt, b') ->
              0 <= Battery.energy_capacity b') /\
  (0 < value ->
   exists b',
     Battery.power_capacity_setter value b = (Ok tt, b') /\
     Battery.power_capacity b' = value /\
     0 < Battery.power_capacity b' /\
     b' = mkBattery (battery_id b) (_energy_capacity b) value (_state b)
                    (cycle_rate b) (battery_inputs b) (battery_outputs b)) /\
  (forall b', Battery.power_capacity_setter value b = (Ok tt, b') ->
              0 <= Battery.power_capacity b').
Proof.
  unfold Battery.energy_capacity_setter, Battery.power_capacity_setter.
  split; [|split; [|split; [|split]]].
  - intros H. apply Qlt_bool_iff in H. rewrite H. split; reflexivity.
  - intros H. apply Qlt_bool_false_iff in H. rewrite H.
    eexists. split; [reflexivity|]. repeat split.
  - intros b'. destruct (Qlt_bool value 0) eqn:E; [discriminate|].
    intros H. injection H as <-. simpl. apply Qlt_bool_false_iff. exact E.
  - intros H. assert (E : Qlt_bool value 0 = false).
    { apply Qlt_bool_false_iff. apply Qlt_le_weak. exact H. }
    rewrite E. eexists. split; [reflexivity|]. repeat split. exact H.
  - intros b'. destruct (Qlt_bool value 0) eqn:E; [discriminate|].
    intros H. injection H as <-. simpl. apply Qlt_bool_false_iff. exact E.
Qed.

Lemma capacity_setters_spec_witness :
  (Battery.energy_capacity_setter (-1) grid_battery =
     (Raise (ValueError "Energy capacity cannot be negative"), grid_battery) /\
   Battery.power_capacity_setter (-1) grid_battery =
     (Raise (ValueError "Power capacity cannot be zero"), grid_battery)) /\
  (exists b',
     Battery.power_capacity_setter 60 grid_battery = (Ok tt, b') /\
     Battery.power_capacity b' = 60 /\
     0 < Battery.power_capacity b' /\
     b' = mkBattery "abcdfgt" 5000 60 IDLE 0 [5000] [0]) /\
  0 <= Battery.energy_capacity
         (after (Battery.energy_capacity_setter 0) grid_battery).
Proof.
  split; [|split].
  - apply (capacity_setters_spec (-1) grid_battery). reflexivity.
  - apply (capacity_setters_spec 60 grid_battery). reflexivity.
  - apply (capacity_setters_spec 0 grid_battery). reflexivity.
Defined.

(** ** Site.power_input *)

Lemma combine_nth_lt {A B} (l : list A) (l' : list B) (k : nat) (x : A) (y : B) :
  (k < List.length (combine l l'))%nat ->
  nth k (combine l l') (x, y) = (nth k l x, nth k l' y).
Proof.
  revert l' k. induction l as [|a l IH]; intros [|a' l'] [|k] H; simpl in *;
    try lia; try reflexivity.
  apply IH. lia.
Qed.

Lemma nth_map_lt {A B} (f : A -> B) (l : list A) (k : nat) (d : A) (d' : B) :
  (k < List.length l)%nat -> nth k (map f l) d' = f (nth k l d).
Proof.
  intros H. rewrite (nth_indep _ d' (f d)) by (rewrite length_map; exact H).
  apply map_nth.
Qed.

(** No tuple beyond the end of any of the zipped lists. *)
Lemma zip_star_length_le {A} (ls : list (list A)) (l : list A) :
  In l ls -> (List.length (zip_star ls) <= List.length l)%nat.
Proof.
  induction ls as [|l0 rest IH]; intros Hin; [contradiction|].
  destruct rest as [|l1 rest'].
  - destruct Hin as [<-|[]]. simpl. rewrite length_map. lia.
  - change (zip_star (l0 :: l1 :: rest'))
      with (map (fun p => fst p :: snd p) (combine l0 (zip_star (l1 :: rest')))).
    rewrite length_map, length_combine.
    destruct Hin as [<-|Hin]; [lia|].
    specialize (IH Hin). lia.
Qed.

(** A tuple for every position that all the zipped lists have. *)
Lemma zip_star_length_ge {A} (ls : list (list A)) (n : nat) :
  ls <> [] ->
  (forall l, In l ls -> (n <= List.length l)%nat) ->
  (n <= List.length (zip_star ls))%nat.
Proof.
  induction ls as [|l0 rest IH]; intros Hne Hall; [contradiction|].
  destruct rest as [|l1 rest'].
  - simpl. rewrite length_map. apply Hall. left. reflexivity.
  - change (zip_star (l0 :: l1 :: rest'))
      with (map (fun p => fst p :: snd p) (combine l0 (zip_star (l1 :: rest')))).
    rewrite length_map, length_combine.
    assert (n <= List.length l0)%nat by (apply Hall; left; reflexivity).
    assert (n <= List.length (zip_star (l1 :: rest')))%nat.
    { apply IH; [discriminate|]. intros l Hl. apply Hall. right. exact Hl. }
    lia.
Qed.

(** The [k]-th tuple holds the [k]-th element of every list, in order. *)
Lemma zip_star_nth {A} (ls : list (list A)) (k : nat) (d : A) :
  (k < List.length (zip_star ls))%nat ->
  nth k (zip_star ls) [] = map (fun l => nth k l d) ls.
Proof.
  induction ls as [|l0 rest IH]; intros Hk; [simpl in Hk; lia|].
  destruct rest as [|l1 rest'].
  - change (zip_star [l0]) with (map (fun x : A => [x]) l0) in *.
    rewrite length_map in Hk.
    rewrite (nth_map_lt _ _ _ d) by exact Hk. reflexivity.
  - change (zip_star (l0 :: l1 :: rest'))
      with (map (fun p => fst p :: snd p) (combine l0 (zip_star (l1 :: rest'))))
      in *.
    rewrite length_map in Hk.
    rewrite (nth_map_lt _ _ _ (d, [])) by exact Hk.
    rewrite (combine_nth_lt _ _ _ _ _ Hk). cbn [fst snd].
    rewrite length_combine in Hk.
    rewrite IH by lia. reflexivity.
Qed.

(** Counterexample to C4 as claimed.  The inputs of the two batteries have
    lengths 2 and 1, and [power_input] is the one-element list of the sums at
    tick 0: the second input of the first battery is dropped and nothing is
    raised. *)
Lemma power_input_truncates_to_shortest :
  let b1 := after Battery.increment
              (after Battery.charge grid_battery_after_one_tick) in
  let b2 := grid_battery in
  let s := Site.__init__ [b1; b2] "yard" in
  battery_inputs b1 = [5000; Decimal.truediv 2500 60] /\
  battery_inputs b2 = [5000] /\
  List.length (battery_inputs b1) <> List.length (battery_inputs b2) /\
  Site.power_input s = [10000] /\
  Site.power_input s =
    Site.power_input
      (Site.__init__ [with_inputs (firstn 1 (battery_inputs b1)) b1; b2] "yard").
Proof.
  intros b1 b2 s.
  split; [vm_compute; reflexivity|].
  split; [reflexivity|].
  split; [vm_compute; discriminate|].
  split; vm_compute; reflexivity.
Qed.

Lemma power_input_shortest (s : Site) (n : nat) :
  (forall b, In b (batteries s) -> (n <= List.length (battery_inputs b))%nat) ->
  (exists b, In b (batteries s) /\ List.length (battery_inputs b) = n) ->
  List.length (Site.power_input s) = n /\
  forall k, (k < n)%nat ->
    nth k (Site.power_input s) 0 =
    sum (map (fun b => nth k (battery_inputs b) 0) (batteries s)).
Proof.
  intros Hall (b0 & Hin0 & Hlen0).
  unfold Site.power_input.
  assert (Hlen : List.length (zip_star (map battery_inputs (batteries s))) = n).
  { apply Nat.le_antisymm.
    - rewrite <- Hlen0. apply zip_star_length_le. apply in_map. exact Hin0.
    - apply zip_star_length_ge.
      + destruct (batteries s); [contradiction|discriminate].
      + intros l Hl. apply in_map_iff in Hl. destruct Hl as (b & <- & Hb).
        apply Hall. exact Hb. }
  split.
  - rewrite length_map. exact Hlen.
  - intros k Hk.
    rewrite (nth_map_lt _ _ _ []) by (rewrite Hlen; exact Hk).
    rewrite (zip_star_nth _ k 0) by (rewrite Hlen; exact Hk).
    rewrite map_map. reflexivity.
Qed.

(** A site without batteries has no power input. *)
Lemma power_input_no_battery (s : Site) :
  batteries s = [] -> Site.power_input s = [].
Proof. unfold Site.power_input. intros ->. reflexivity. Qed.

(** C4 (amended).  For a site with at least one battery: when all inputs
    sequences have the same length [n], [power_input] has length [n] and its
    [k]-th element is the sum over the site's batteries of the [k]-th element
    of each battery's inputs; and in general, when [n] is the length of the
    shortest inputs sequence, [power_input] has length [n] and is that
    elementwise sum over the first [n] ticks: what longer sequences hold
    beyond [n] is dropped. *)
Theorem power_input_spec (s : Site) (n : nat) :
  batteries s <> [] ->
  ((forall b, In b (batteries s) -> List.length (battery_inputs b) = n) ->
   List.length (Site.power_input s) = n /\
   forall k, (k < n)%nat ->
     nth k (Site.power_input s) 0 =
     sum (map (fun b => nth k (battery_inputs b) 0) (batteries s))) /\
  ((forall b, In b (batteries s) -> (n <= List.length (battery_inputs b))%nat) ->
   (exists b, In b (batteries s) /\ List.length (battery_inputs b) = n) ->
   List.length (Site.power_input s) = n /\
   forall k, (k < n)%nat ->
     nth k (Site.power_input s) 0 =
     sum (map (fun b => nth k (battery_inputs b) 0) (batteries s))).
Proof.
  intros Hne. split.
  - intros Heq. apply power_input_shortest.
    + intros b Hb. rewrite (Heq b Hb). apply Nat.le_refl.
    + destruct (batteries s) as [|b0 rest] eqn:E; [contradiction|].
      exists b0. split; [left; reflexivity|]. apply Heq. left. reflexivity.
  - apply power_input_shortest.
Qed.

Lemma power_input_spec_witness :
  let b1 := after Battery.increment
              (after Battery.charge grid_battery_after_one_tick) in
  (List.length (Site.power_input (Site.__init__ [b1; b1] "yard")) = 2%nat /\
   forall k, (k < 2)%nat ->
     nth k (Site.power_input (Site.__init__ [b1; b1] "yard")) 0 =
     sum (map (fun b => nth k (battery_inputs b) 0) [b1; b1])) /\
  (List.length (Site.power_input (Site.__init__ [b1; grid_battery] "yard")) = 1%nat /\
   forall k, (k < 1)%nat ->
     nth k (Site.power_input (Site.__init__ [b1; grid_battery] "yard")) 0 =
     sum (map (fun b => nth k (battery_inputs b) 0) [b1; grid_battery])).
Proof.
  intros b1. split.
  - refine (proj1 (power_input_spec (Site.__init__ [b1; b1] "yard") 2 _) _).
    + discriminate.
    + intros b [<-|[<-|[]]]; vm_compute; reflexivity.
  - refine (proj2 (power_input_spec (Site.__init__ [b1; grid_battery] "yard") 1 _)
                  _ _).
    + discriminate.
    + intros b [<-|[<-|[]]]; vm_compute; lia.
    + exists grid_battery. split; [right; left; reflexivity|reflexivity].
Defined.

(** ** What the strategies do in general *)

Section FoldBest.

(** [better y m] says that a later element [y] replaces the current best [m]:
    [y < m] for [min], [m < y] for [max]. *)
Variable better : Q -> Q -> bool.
Variable le : Q -> Q -> Prop.
Hypothesis le_refl : forall x, le x x.
Hypothesis le_trans : forall x y z, le x y -> le y z -> le x z.
Hypothesis better_le : forall y m, better y m = true -> le y m.
Hypothesis not_better_le : forall y m, better y m = false -> le m y.

Lemma fold_best_spec (t : list Q) (x : Q) :
  let r := fold_left (fun m y => if better y m then y else m) t x in
  In r (x :: t) /\ forall y, In y (x :: t) -> le r y.
Proof.
  revert x. induction t as [|a t IH]; intros x; simpl.
  - split; [left; reflexivity|]. intros y [<-|[]]. apply le_refl.
  - destruct (better a x) eqn:E.
    + destruct (IH a) as [Hin Hle]. split.
      * right. exact Hin.
      * intros y [<-|Hy].
        -- apply le_trans with a; [apply Hle; left; reflexivity|].
           apply better_le. exact E.
        -- apply Hle. exact Hy.
    + destruct (IH x) as [Hin Hle]. split.
      * destruct Hin as [<-|Hin]; [left; reflexivity|right; right; exact Hin].
      * intros y [<-|[<-|Hy]].
        -- apply Hle. left. reflexivity.
        -- apply le_trans with x; [apply Hle; left; reflexivity|].
           apply not_better_le. exact E.
        -- apply Hle. right. exact Hy.
Qed.

End FoldBest.

Lemma py_min_spec (l : list Q) :
  l <> [] ->
  exists m, py_min l = Ok m /\ In m l /\ forall y, In y l -> m <= y.
Proof.
  destruct l as [|x t]; [contradiction|]. intros _.
  eexists. split; [reflexivity|].
  apply (fold_best_spec (fun y m => Qlt_bool y m) Qle).
  - apply Qle_refl.
  - apply Qle_trans.
  - intros y m H. apply Qlt_bool_iff in H. apply Qlt_le_weak. exact H.
  - intros y m H. apply Qlt_bool_false_iff in H. exact H.
Qed.

Lemma py_max_spec (l : list Q) :
  l <> [] ->
  exists m, py_max l = Ok m /\ In m l /\ forall y, In y l -> y <= m.
Proof.
  destruct l as [|x t]; [contradiction|]. intros _.
  eexists. split; [reflexivity|].
  apply (fold_best_spec (fun y m => Qlt_bool m y) (fun a b => b <= a)).
  - apply Qle_refl.
  - intros a b c H1 H2. apply Qle_trans with b; assumption.
  - intros y m H. apply Qlt_bool_iff in H. apply Qlt_le_weak. exact H.
  - intros y m H. apply Qlt_bool_false_iff in H. exact H.
Qed.

(** The first element that passes a filter. *)
Lemma filter_first {A} (p : A -> bool) (l : list A) (a : A) :
  In a l -> p a = true ->
  exists l1 b l2 rest,
    l = l1 ++ b :: l2 /\ filter p l = b :: rest /\ p b = true /\
    forall x, In x l1 -> p x = false.
Proof.
  induction l as [|x l IH]; intros Hin Hp; [contradiction|].
  simpl. destruct (p x) eqn:E.
  - exists [], x, l, (filter p l). repeat split; try assumption.
    intros y [].
  - destruct Hin as [->|Hin]; [congruence|].
    destruct (IH Hin Hp) as (l1 & b & l2 & rest & -> & Hf & Hb & Hl1).
    exists (x :: l1), b, l2, rest. repeat split; try assumption.
    intros y [<-|Hy]; [exact E|apply Hl1; exact Hy].
Qed.

Lemma py_index_head {A} (b : A) (rest : list A) : py_index (b :: rest) 0 = Ok b.
Proof. reflexivity. Qed.

Lemma filter_nil_all {A} (p : A -> bool) (l : list A) :
  (forall x, In x l -> p x = false) -> filter p l = [].
Proof.
  induction l as [|x l IH]; intros H; [reflexivity|].
  simpl. rewrite (H x (or_introl eq_refl)). apply IH.
  intros y Hy. apply H. right. exact Hy.
Qed.

Lemma state_neqb (s t : BatteryState) :
  negb (BatteryState_eqb s t) = true <-> s <> t.
Proof. destruct s, t; simpl; split; intros H; congruence. Qed.

(** [determine_charge_battery] fails in [min] when every battery is
    [CHARGING]; otherwise it answers with the first battery of the list, of
    whatever state, whose current capacity equals the least current capacity
    among the batteries that are not [CHARGING]. *)
Lemma determine_charge_battery_spec (rate : Q) (bs : list Battery) :
  ((forall b, In b bs -> Battery.state b = CHARGING) ->
   LowestToHighestChargingStrategy.determine_charge_battery rate bs =
     Raise (ValueError "min() arg is an empty sequence")) /\
  ((exists b, In b bs /\ Battery.state b <> CHARGING) ->
   exists l1 b l2 b0,
     bs = l1 ++ b :: l2 /\
     LowestToHighestChargingStrategy.determine_charge_battery rate bs = Ok b /\
     In b0 bs /\ Battery.state b0 <> CHARGING /\
     Battery.current_capacity b == Battery.current_capacity b0 /\
     (forall b', In b' bs -> Battery.state b' <> CHARGING ->
                 Battery.current_capacity b <= Battery.current_capacity b') /\
     (forall b', In b' l1 ->
                 ~ Battery.current_capacity b' == Battery.current_capacity b)).
Proof.
  unfold LowestToHighestChargingStrategy.determine_charge_battery.
  set (free := fun battery => negb (BatteryState_eqb (Battery.state battery) CHARGING)).
  split.
  - intros Hall. rewrite (filter_nil_all free); [reflexivity|].
    intros b Hb. unfold free. rewrite (Hall b Hb). reflexivity.
  - intros (a & Ha & Hsa).
    destruct (py_min_spec (map Battery.current_capacity (filter free bs)))
      as (m & Hm & Hin & Hle).
    { assert (In a (filter free bs)) as Hf
        by (apply filter_In; split; [exact Ha|apply state_neqb; exact Hsa]).
      destruct (filter free bs); [contradiction|discriminate]. }
    rewrite Hm. simpl rbind.
    apply in_map_iff in Hin. destruct Hin as (b0 & Hb0 & Hin0).
    apply filter_In in Hin0. destruct Hin0 as [Hin0 Hfree0].
    destruct (filter_first
                (fun battery => Qeq_bool (Battery.current_capacity battery) m)
                bs b0 Hin0) as (l1 & b & l2 & rest & Hsplit & Hfilter & Hb & Hl1).
    { apply Qeq_bool_iff. rewrite Hb0. reflexivity. }
    apply Qeq_bool_iff in Hb.
    exists l1, b, l2, b0. split; [exact Hsplit|].
    split; [rewrite Hfilter; apply py_index_head|].
    split; [exact Hin0|].
    split; [apply state_neqb; exact Hfree0|].
    split; [rewrite Hb, Hb0; reflexivity|].
    split.
    + intros b' Hb' Hs'. rewrite Hb. apply Hle. apply in_map.
      apply filter_In. split; [exact Hb'|apply state_neqb; exact Hs'].
    + intros b' Hb' Heq. specialize (Hl1 b' Hb').
      assert (Qeq_bool (Battery.current_capacity b') m = true) as Ht
        by (apply Qeq_bool_iff; rewrite Heq; exact Hb).
      congruence.
Qed.

(** [determine_discharge_battery] fails in [max] when every battery is
    [DISCHARGING]; otherwise it answers with the first battery of the list,
    of whatever state, whose current capacity equals the greatest current
    capacity among the batteries that are not [DISCHARGING]. *)
Lemma determine_discharge_battery_spec (rate : Q) (bs : list Battery) :
  ((forall b, In b bs -> Battery.state b = DISCHARGING) ->
   LowestToHighestChargingStrategy.determine_discharge_battery rate bs =
     Raise (ValueError "max() arg is an empty sequence")) /\
  ((exists b, In b bs /\ Battery.state b <> DISCHARGING) ->
   exists l1 b l2 b0,
     bs = l1 ++ b :: l2 /\
     LowestToHighestChargingStrategy.determine_discharge_battery rate bs = Ok b /\
     In b0 bs /\ Battery.state b0 <> DISCHARGING /\
     Battery.current_capacity b == Battery.current_capacity b0 /\
     (forall b', In b' bs -> Battery.state b' <> DISCHARGING ->
                 Battery.current_capacity b' <= Battery.current_capacity b) /\
     (forall b', In b' l1 ->
                 ~ Battery.current_capacity b' == Battery.current_capacity b)).
Proof.
  unfold LowestToHighestChargingStrategy.determine_discharge_battery.
  set (free := fun battery =>
                 negb (BatteryState_eqb (Battery.state battery) DISCHARGING)).
  split.
  - intros Hall. rewrite (filter_nil_all free); [reflexivity|].
    intros b Hb. unfold free. rewrite (Hall b Hb). reflexivity.
  - intros (a & Ha & Hsa).
    destruct (py_max_spec (map Battery.current_capacity (filter free bs)))
      as (m & Hm & Hin & Hle).
    { assert (In a (filter free bs)) as Hf
        by (apply filter_In; split; [exact Ha|apply state_neqb; exact Hsa]).
      destruct (filter free bs); [contradiction|discriminate]. }
    rewrite Hm. simpl rbind.
    apply in_map_iff in Hin. destruct Hin as (b0 & Hb0 & Hin0).
    apply filter_In in Hin0. destruct Hin0 as [Hin0 Hfree0].
    destruct (filter_first
                (fun battery => Qeq_bool (Battery.current_capacity battery) m)
                bs b0 Hin0) as (l1 & b & l2 & rest & Hsplit & Hfilter & Hb & Hl1).
    { apply Qeq_bool_iff. rewrite Hb0. reflexivity. }
    apply Qeq_bool_iff in Hb.
    exists l1, b, l2, b0. split; [exact Hsplit|].
    split; [rewrite Hfilter; apply py_index_head|].
    split; [exact Hin0|].
    split; [apply state_neqb; exact Hfree0|].
    split; [rewrite Hb, Hb0; reflexivity|].
    split.
    + intros b' Hb' Hs'. rewrite Hb. apply Hle. apply in_map.
      apply filter_In. split; [exact Hb'|apply state_neqb; exact Hs'].
    + intros b' Hb' Heq. specialize (Hl1 b' Hb').
      assert (Qeq_bool (Battery.current_capacity b') m = true) as Ht
        by (apply Qeq_bool_iff; rewrite Heq; exact Hb).
      congruence.
Qed.

(** A draw below the number of eligible batteries selects one of them. *)
Lemma random_charge_in_range (randint : Z -> Z -> Z) (bs : list Battery) :
  let eligible :=
    filter (fun b => negb (BatteryState_eqb (Battery.state b) CHARGING)) bs in
  (0 <= randint 0 (Z.of_nat (List.length eligible))
     < Z.of_nat (List.length eligible))%Z ->
  exists b,
    RandomChargingStrategy.determine_charge_battery randint bs = Ok b /\
    In b bs /\ Battery.state b <> CHARGING.
Proof.
  intros eligible Hr.
  unfold RandomChargingStrategy.determine_charge_battery. fold eligible.
  set (i := randint 0%Z (Z.of_nat (List.length eligible))) in *.
  unfold py_index.
  destruct (i <? 0)%Z eqn:E; [apply Z.ltb_lt in E; lia|].
  replace ((0 <=? i)%Z && (i <? Z.of_nat (List.length eligible))%Z) with true
    by (symmetry; apply andb_true_iff; split;
        [apply Z.leb_le|apply Z.ltb_lt]; lia).
  destruct (nth_error eligible (Z.to_nat i)) as [b|] eqn:N.
  - exists b. split; [reflexivity|].
    apply nth_error_In in N. apply filter_In in N. destruct N as [Hin Hs].
    split; [exact Hin|apply state_neqb; exact Hs].
  - apply nth_error_None in N. lia.
Qed.

(** ** LowestToHighestChargingStrategy *)

(** C1 at a tie between a busy and a free battery.  Two grid batteries have
    discharged for one tick; the first is then told to charge and the second
    to idle.  [determine_charge_battery] answers with the first one, which is
    [CHARGING].  Likewise for two fresh grid batteries, the first of which is
    told to discharge: [determine_discharge_battery] answers with it. *)
Theorem lowest_to_highest_returns_busy_battery_on_tie :
  let b1 := after Battery.charge grid_battery_after_one_tick in
  let b2 := after Battery.idle grid_battery_after_one_tick in
  let d1 := after Battery.discharge grid_battery in
  let d2 := grid_battery in
  Battery.state b1 = CHARGING /\
  Battery.state b2 = IDLE /\
  LowestToHighestChargingStrategy.determine_charge_battery 2500 [b1; b2] = Ok b1 /\
  Battery.state d1 = DISCHARGING /\
  Battery.state d2 = IDLE /\
  LowestToHighestChargingStrategy.determine_discharge_battery 2500 [d1; d2] = Ok d1.
Proof. repeat split. Qed.

(** C2 at a rate that one battery cannot serve.  The rate is not read: any
    two rates give the same answer, which is a single battery.  For two fresh
    grid batteries and a rate of 3000 the answer is the first battery alone,
    whose power capacity is 2500. *)
Theorem lowest_to_highest_ignores_rate :
  (forall r r' bs,
     LowestToHighestChargingStrategy.determine_discharge_battery r bs =
     LowestToHighestChargingStrategy.determine_discharge_battery r' bs) /\
  (forall r r' bs,
     LowestToHighestChargingStrategy.determine_charge_battery r bs =
     LowestToHighestChargingStrategy.determine_charge_battery r' bs) /\
  LowestToHighestChargingStrategy.determine_discharge_battery 3000
    [grid_battery; grid_battery] = Ok grid_battery /\
  Battery.power_capacity grid_battery < 3000 /\
  LowestToHighestChargingStrategy.determine_charge_battery 3000
    [after Battery.idle grid_battery_after_one_tick;
     after Battery.idle grid_battery_after_one_tick] =
    Ok (after Battery.idle grid_battery_after_one_tick).
Proof. repeat split. Qed.

(** ** RandomChargingStrategy *)

(** C9 at the largest draw.  [randint(0, n)] may return [n]; a source that
    does so keeps the contract of [randint], and with it both methods raise
    [IndexError] on a site of one idle grid battery, and on every list of
    batteries. *)
Theorem random_strategy_index_out_of_range :
  RandomChargingStrategy.randint_contract (fun _ b => b) /\
  RandomChargingStrategy.determine_charge_battery (fun _ b => b) [grid_battery] =
    Raise IndexError /\
  RandomChargingStrategy.determine_discharge_battery (fun _ b => b) [grid_battery] =
    Raise IndexError /\
  (forall bs,
     RandomChargingStrategy.determine_charge_battery (fun _ b => b) bs =
       Raise IndexError /\
     RandomChargingStrategy.determine_discharge_battery (fun _ b => b) bs =
       Raise IndexError).
Proof.
  assert (H : forall (l : list Battery),
             py_index l (Z.of_nat (List.length l)) = Raise IndexError).
  { intros l. unfold py_index.
    destruct (Z.of_nat (List.length l) <? 0)%Z eqn:E;
      [apply Z.ltb_lt in E; lia|].
    rewrite Z.ltb_irrefl, andb_false_r. reflexivity. }
  split; [intros a b Hab; lia|].
  split; [reflexivity|].
  split; [reflexivity|].
  intros bs. split; apply H.
Qed.

(** ** Site.charge *)

(** C3 on a site with one idle battery that is not full.  [Site.charge]
    returns normally, with every site as it was; in particular the battery is
    still [IDLE] after [charge(2500)]. *)
Theorem site_charge_changes_nothing :
  (forall rate s, Site.charge rate s = (Ok tt, s)) /\
  let b := after Battery.idle grid_battery_after_one_tick in
  let s := Site.__init__ [b] "yard" in
  Battery.state b = IDLE /\
  ~ Battery.current_capacity b == Battery.energy_capacity b /\
  Battery.charge b = (Ok tt, with_state CHARGING b) /\
  map Battery.state (batteries (after (Site.charge 2500) s)) = [IDLE].
Proof.
  split; [reflexivity|].
  split; [reflexivity|].
  split; [intros H; vm_compute in H; discriminate|].
  split; reflexivity.
Qed.

(** * Further properties of the code *)

(** ** Sums, again *)

(** A decimal sum is a value of the context: rounding it again changes
    nothing. *)
Lemma sum_fixed (l : list Q) : Decimal.fix_ (sum l) == sum l.
Proof.
  induction l as [|x l _] using rev_ind.
  - reflexivity.
  - rewrite sum_snoc. apply fix_idem.
Qed.

Lemma fold_add_le (l l' : list Q) (a a' : Q) :
  Forall2 Qle l l' -> a <= a' ->
  fold_left Decimal.add l a <= fold_left Decimal.add l' a'.
Proof.
  intros H. revert a a'. induction H as [|x x' l l' Hx _ IH]; intros a a' Ha.
  - exact Ha.
  - simpl. apply IH. apply fix_mono. apply Qplus_le_compat; assumption.
Qed.

Lemma truediv_nonneg (x y : Q) : 0 <= x -> 0 < y -> 0 <= Decimal.truediv x y.
Proof.
  intros Hx Hy. unfold Decimal.truediv.
  change 0 with (Decimal.fix_ 0) at 1. apply fix_mono.
  apply Qle_shift_div_l; [exact Hy|]. rewrite Qmult_0_l. exact Hx.
Qed.

(** Adding an entry that is not negative does not lower a decimal sum. *)
Lemma sum_snoc_ge (l : list Q) (x : Q) : 0 <= x -> sum l <= sum (l ++ [x]).
Proof.
  intros Hx. rewrite sum_snoc. unfold Decimal.add.
  rewrite <- (sum_fixed l) at 1. apply fix_mono.
  rewrite <- (Qplus_0_r (sum l)) at 1. apply Qplus_le_compat; [apply Qle_refl|exact Hx].
Qed.

(** ** Sequences of calls on one battery *)

(** What one call can do to a battery: nothing to its identity and rated
    capacities, and at most one entry, the decimal quotient
    [power_capacity / 60], appended to one of the two histories, by
    [increment()] only. *)
Lemma perform_effect (c : call) (b : Battery) :
  exists i o : nat,
    battery_inputs (after (perform c) b) =
      battery_inputs b ++
      repeat (Decimal.truediv (Battery.power_capacity b) 60) i /\
    battery_outputs (after (perform c) b) =
      battery_outputs b ++
      repeat (Decimal.truediv (Battery.power_capacity b) 60) o /\
    (i + o <= ticks [c])%nat /\
    Battery.energy_capacity (after (perform c) b) = Battery.energy_capacity b /\
    Battery.power_capacity (after (perform c) b) = Battery.power_capacity b /\
    battery_id (after (perform c) b) = battery_id b /\
    cycle_rate (after (perform c) b) = cycle_rate b.
Proof.
  destruct c; unfold after; simpl perform.
  - exists 0%nat, 0%nat.
    destruct (Qeq_dec (Battery.current_capacity b) (Battery.energy_capacity b))
      as [E|E];
      [rewrite (charge_full b E)|rewrite (charge_not_full b E)];
      simpl; rewrite !app_nil_r; repeat split; unfold ticks; simpl; lia.
  - exists 0%nat, 0%nat.
    destruct (Qeq_dec (Battery.current_capacity b) 0) as [E|E];
      [rewrite (discharge_empty b E)|rewrite (discharge_not_empty b E)];
      simpl; rewrite !app_nil_r; repeat split; unfold ticks; simpl; lia.
  - exists 0%nat, 0%nat. simpl. rewrite !app_nil_r.
    repeat split; unfold ticks; simpl; lia.
  - destruct (Battery.state b) eqn:E.
    + exists 1%nat, 0%nat. rewrite (increment_charging b E).
      simpl. rewrite !app_nil_r. repeat split; unfold ticks; simpl; lia.
    + exists 0%nat, 1%nat. rewrite (increment_discharging b E).
      simpl. rewrite !app_nil_r. repeat split; unfold ticks; simpl; lia.
    + exists 0%nat, 0%nat. rewrite (increment_idle b E).
      simpl. rewrite !app_nil_r. repeat split; unfold ticks; simpl; lia.
Qed.

Lemma ticks_cons (c : call) (cs : list call) :
  ticks (c :: cs) = (ticks [c] + ticks cs)%nat.
Proof. unfold ticks. simpl. destruct c; reflexivity. Qed.

(** X1.  Whatever calls are made on a battery, in whatever order and whether
    they raise or not: its identity, energy capacity and power capacity stay
    as they were; both histories only grow at the end, by entries equal to
    the decimal quotient [power_capacity / 60]; and no more entries are added
    than [increment()] was called. *)
Theorem histories_are_append_only (cs : list call) (b : Battery) :
  exists i o : nat,
    battery_inputs (run cs b) =
      battery_inputs b ++
      repeat (Decimal.truediv (Battery.power_capacity b) 60) i /\
    battery_outputs (run cs b) =
      battery_outputs b ++
      repeat (Decimal.truediv (Battery.power_capacity b) 60) o /\
    (i + o <= ticks cs)%nat /\
    Battery.energy_capacity (run cs b) = Battery.energy_capacity b /\
    Battery.power_capacity (run cs b) = Battery.power_capacity b /\
    battery_id (run cs b) = battery_id b.
Proof.
  revert b. induction cs as [|c cs IH]; intros b.
  - exists 0%nat, 0%nat. simpl. rewrite !app_nil_r.
    repeat split; lia.
  - change (run (c :: cs) b) with (run cs (after (perform c) b)).
    destruct (perform_effect c b) as (i1 & o1 & Hi1 & Ho1 & Ht1 & He1 & Hp1 & Hd1 & _).
    destruct (IH (after (perform c) b))
      as (i2 & o2 & Hi2 & Ho2 & Ht2 & He2 & Hp2 & Hd2).
    exists (i1 + i2)%nat, (o1 + o2)%nat.
    split; [rewrite Hi2, Hi1, Hp1, repeat_app, app_assoc; reflexivity|].
    split; [rewrite Ho2, Ho1, Hp1, repeat_app, app_assoc; reflexivity|].
    split; [rewrite ticks_cons; lia|].
    split; [rewrite He2; exact He1|].
    split; [rewrite Hp2; exact Hp1|].
    rewrite Hd2; exact Hd1.
Qed.

(** ** A command followed by a tick *)

Lemma after_charge (b : Battery) :
  after Battery.charge b =
    if Qeq_bool (Battery.current_capacity b) (Battery.energy_capacity b)
    then b else with_state CHARGING b.
Proof.
  unfold after, Battery.charge, bind, get.
  destruct (Qeq_bool _ _); reflexivity.
Qed.

Lemma after_discharge (b : Battery) :
  after Battery.discharge b =
    if Qeq_bool (Battery.current_capacity b) 0
    then b else with_state DISCHARGING b.
Proof.
  unfold after, Battery.discharge, bind, get.
  destruct (Qeq_bool _ _); reflexivity.
Qed.

Lemma Qeq_bool_false (x y : Q) : ~ x == y -> Qeq_bool x y = false.
Proof.
  intros H. destruct (Qeq_bool x y) eqn:E; [|reflexivity].
  apply Qeq_bool_iff in E. contradiction.
Qed.

(** X2.  For a battery whose power capacity is not negative, an accepted
    [charge()] followed by one [increment()] appends one entry to the inputs
    and does not lower the current capacity, and an accepted [discharge()]
    followed by one [increment()] appends one entry to the outputs and does
    not raise it.  A refused command leaves the battery in its previous
    state, so the tick that follows acts as if the command had not been
    given. *)
Theorem command_then_tick (b : Battery) :
  (~ Battery.current_capacity b == Battery.energy_capacity b ->
   0 <= Battery.power_capacity b ->
   battery_inputs (after Battery.increment (after Battery.charge b)) =
     battery_inputs b ++ [Decimal.truediv (Battery.power_capacity b) 60] /\
   battery_outputs (after Battery.increment (after Battery.charge b)) =
     battery_outputs b /\
   Battery.current_capacity b <=
     Battery.current_capacity (after Battery.increment (after Battery.charge b))) /\
  (~ Battery.current_capacity b == 0 ->
   0 <= Battery.power_capacity b ->
   battery_inputs (after Battery.increment (after Battery.discharge b)) =
     battery_inputs b /\
   battery_outputs (after Battery.increment (after Battery.discharge b)) =
     battery_outputs b ++ [Decimal.truediv (Battery.power_capacity b) 60] /\
   Battery.current_capacity (after Battery.increment (after Battery.discharge b)) <=
     Battery.current_capacity b) /\
  (Battery.current_capacity b == Battery.energy_capacity b ->
   after Battery.increment (after Battery.charge b) = after Battery.increment b) /\
  (Battery.current_capacity b == 0 ->
   after Battery.increment (after Battery.discharge b) = after Battery.increment b).
Proof.
  split; [|split; [|split]].
  - intros H Hp. rewrite after_charge, (Qeq_bool_false _ _ H).
    unfold after.
    rewrite (increment_charging (with_state CHARGING b) eq_refl).
    cbn [snd]. split; [reflexivity|]. split; [reflexivity|].
    unfold Battery.current_capacity, Decimal.sub. apply fix_mono.
    apply Qplus_le_compat; [|apply Qle_refl].
    apply (sum_snoc_ge (battery_inputs b)).
    apply truediv_nonneg; [exact Hp|reflexivity].
  - intros H Hp. rewrite after_discharge, (Qeq_bool_false _ _ H).
    unfold after.
    rewrite (increment_discharging (with_state DISCHARGING b) eq_refl).
    cbn [snd]. split; [reflexivity|]. split; [reflexivity|].
    unfold Battery.current_capacity, Decimal.sub. apply fix_mono.
    apply Qplus_le_compat; [apply Qle_refl|].
    apply Qopp_le_compat.
    apply (sum_snoc_ge (battery_outputs b)).
    apply truediv_nonneg; [exact Hp|reflexivity].
  - intros H. apply Qeq_bool_iff in H. rewrite after_charge, H. reflexivity.
  - intros H. apply Qeq_bool_iff in H. rewrite after_discharge, H. reflexivity.
Qed.

Lemma command_then_tick_witness :
  (battery_inputs
     (after Battery.increment (after Battery.charge grid_battery_after_one_tick)) =
     battery_inputs grid_battery_after_one_tick ++
     [Decimal.truediv (Battery.power_capacity grid_battery_after_one_tick) 60] /\
   battery_outputs
     (after Battery.increment (after Battery.charge grid_battery_after_one_tick)) =
     battery_outputs grid_battery_after_one_tick /\
   Battery.current_capacity grid_battery_after_one_tick <=
     Battery.current_capacity
       (after Battery.increment
          (after Battery.charge grid_battery_after_one_tick))) /\
  (battery_inputs (after Battery.increment (after Battery.discharge grid_battery)) =
     battery_inputs grid_battery /\
   battery_outputs (after Battery.increment (after Battery.discharge grid_battery)) =
     battery_outputs grid_battery ++
     [Decimal.truediv (Battery.power_capacity grid_battery) 60] /\
   Battery.current_capacity
     (after Battery.increment (after Battery.discharge grid_battery)) <=
     Battery.current_capacity grid_battery) /\
  after Battery.increment (after Battery.charge grid_battery) =
    after Battery.increment grid_battery /\
  after Battery.increment
    (after Battery.discharge (with_outputs [5000] grid_battery)) =
    after Battery.increment (with_outputs [5000] grid_battery).
Proof.
  split; [|split; [|split]].
  - apply (command_then_tick grid_battery_after_one_tick).
    + intros H. vm_compute in H. discriminate.
    + vm_compute. discriminate.
  - apply (command_then_tick grid_battery).
    + intros H. vm_compute in H. discriminate.
    + vm_compute. discriminate.
  - apply (command_then_tick grid_battery). vm_compute. reflexivity.
  - apply (command_then_tick (with_outputs [5000] grid_battery)).
    vm_compute. reflexivity.
Defined.

(** ** Discharging from full *)

Lemma times_increment_discharging (n : nat) (b : Battery) :
  Battery.state b = DISCHARGING ->
  exists b',
    times n Battery.increment b = (Ok tt, b') /\
    Battery.state b' = DISCHARGING /\
    Battery.energy_capacity b' = Battery.energy_capacity b /\
    Battery.power_capacity b' = Battery.power_capacity b /\
    battery_id b' = battery_id b /\
    battery_inputs b' = battery_inputs b /\
    battery_outputs b' =
      battery_outputs b ++
      repeat (Decimal.truediv (Battery.power_capacity b) 60) n.
Proof.
  revert b. induction n as [|n IH]; intros b Hs.
  - exists b. simpl. rewrite app_nil_r. repeat split; assumption.
  - set (b1 := with_outputs
                 (battery_outputs b ++
                  [Decimal.truediv (Battery.power_capacity b) 60]) b).
    destruct (IH b1) as (b' & Hrun & Hs' & He & Hp & Hd & Hi & Ho);
      [exact Hs|].
    exists b'. split.
    { simpl. unfold bind. rewrite (increment_discharging b Hs). exact Hrun. }
    repeat split; try assumption.
    rewrite Ho. unfold b1. simpl. rewrite <- app_assoc. reflexivity.
Qed.

(** X4.  A battery that is full and [DISCHARGING], incremented
    [60 * storage_duration] times (when that is a whole number [n] of ticks),
    ends empty when the arithmetic of the run is exact, that is, when the
    decimal context rounds none of these: the initial difference of the
    histories, the quotients [energy_capacity / power_capacity] and
    [power_capacity / 60], and the [n] running sums of the outputs.  Every
    call succeeds, [n] entries are added to the outputs and none to the
    inputs, the current capacity is zero, and a further [discharge()] raises
    [BatteryEmptyError]. *)
Theorem discharge_from_full_round_trip (b : Battery) (d : Q) (n : nat) :
  Battery.current_capacity b == Battery.energy_capacity b ->
  Battery.state b = DISCHARGING ->
  Battery.storage_duration b = Ok d ->
  60 * d == inject_Z (Z.of_nat n) ->
  exact (sum (battery_inputs b) - sum (battery_outputs b)) ->
  exact (Battery.energy_capacity b / Battery.power_capacity b) ->
  exact (Battery.power_capacity b / 60) ->
  exact_sums (sum (battery_outputs b)) (Battery.power_capacity b / 60) n ->
  exists b',
    times n Battery.increment b = (Ok tt, b') /\
    battery_inputs b' = battery_inputs b /\
    List.length (battery_outputs b') = (List.length (battery_outputs b) + n)%nat /\
    Battery.current_capacity b' == 0 /\
    Battery.discharge b' =
      (Raise (BatteryEmptyError
                (battery_id b ++ " Battery is empty and cannot discharge")%string),
       b').
Proof.
  intros Hc Hs Hd Hn X0 Xd Xx Xs. unfold exact in X0, Xd, Xx.
  destruct (times_increment_discharging n b Hs)
    as (b' & Hrun & _ & He & _ & Hid & Hi & Ho).
  exists b'.
  assert (H0 : Battery.current_capacity b' == 0).
  { unfold Battery.storage_duration, Battery.py_div in Hd.
    destruct (Qeq_bool (Battery.power_capacity b) 0) eqn:Hp0; [discriminate|].
    injection Hd as Hd.
    assert (Hp : ~ Battery.power_capacity b == 0).
    { intros H. apply Qeq_bool_iff in H. congruence. }
    assert (Hd' : d == Battery.energy_capacity b / Battery.power_capacity b).
    { rewrite <- Hd. exact Xd. }
    assert (Hfull : sum (battery_inputs b) - sum (battery_outputs b) ==
                    Battery.energy_capacity b).
    { rewrite <- X0. exact Hc. }
    assert (Hsum : sum (battery_outputs b') ==
                   sum (battery_outputs b) +
                   inject_Z (Z.of_nat n) * (Battery.power_capacity b / 60)).
    { rewrite Ho. rewrite sum_app_repeat_exact.
      - unfold Decimal.truediv. rewrite Xx. reflexivity.
      - apply (exact_sums_comp _ (Battery.power_capacity b / 60)); [|exact Xs].
        symmetry. exact Xx. }
    unfold Battery.current_capacity, Decimal.sub.
    rewrite (fix_zero _); [reflexivity|].
    rewrite Hi, Hsum, <- Hn, Hd'.
    setoid_replace
      (sum (battery_inputs b) -
       (sum (battery_outputs b) +
        60 * (Battery.energy_capacity b / Battery.power_capacity b) *
        (Battery.power_capacity b / 60)))
      with ((sum (battery_inputs b) - sum (battery_outputs b)) -
            60 * (Battery.energy_capacity b / Battery.power_capacity b) *
            (Battery.power_capacity b / 60)) by ring.
    rewrite Hfull. field. exact Hp. }
  split; [exact Hrun|].
  split; [exact Hi|].
  split; [rewrite Ho, length_app, repeat_length; reflexivity|].
  split; [exact H0|].
  rewrite <- Hid. apply discharge_empty. exact H0.
Qed.

Lemma discharge_from_full_round_trip_witness :
  let b := mkBattery "abcdfgt" 6000 3000 DISCHARGING 0 [6000] [0] in
  exists b',
    times 120 Battery.increment b = (Ok tt, b') /\
    battery_inputs b' = [6000] /\
    List.length (battery_outputs b') = 121%nat /\
    Battery.current_capacity b' == 0 /\
    Battery.discharge b' =
      (Raise (BatteryEmptyError "abcdfgt Battery is empty and cannot discharge"),
       b').
Proof.
  intros b.
  apply (discharge_from_full_round_trip b 2 120).
  - vm_compute. reflexivity.
  - reflexivity.
  - vm_compute. reflexivity.
  - reflexivity.
  - vm_compute. reflexivity.
  - vm_compute. reflexivity.
  - vm_compute. reflexivity.
  - apply exact_sumsb_correct. vm_compute. reflexivity.
Defined.

(** ** The derived ratios *)

(** X5.  For a battery with a positive energy capacity whose current
    capacity lies between zero and the energy capacity, [state_of_charge]
    returns a value between 0 and 1. *)
Theorem state_of_charge_in_unit_interval (b : Battery) :
  0 < Battery.energy_capacity b ->
  0 <= Battery.current_capacity b ->
  Battery.current_capacity b <= Battery.energy_capacity b ->
  exists q,
    Battery.state_of_charge b = Ok q /\ 0 <= q /\ q <= 1.
Proof.
  intros He H0 H1.
  assert (Hne : ~ Battery.energy_capacity b == 0).
  { intros E. rewrite E in He. exact (Qlt_irrefl _ He). }
  exists (Decimal.truediv (Battery.current_capacity b) (Battery.energy_capacity b)).
  split.
  { unfold Battery.state_of_charge, Battery.py_div.
    rewrite (Qeq_bool_false _ _ Hne). reflexivity. }
  unfold Decimal.truediv. split.
  - change 0 with (Decimal.fix_ 0) at 1. apply fix_mono.
    apply Qle_shift_div_l; [exact He|]. rewrite Qmult_0_l. exact H0.
  - apply Qle_trans with (Decimal.fix_ 1); [|vm_compute; discriminate].
    apply fix_mono.
    apply Qle_shift_div_r; [exact He|]. rewrite Qmult_1_l. exact H1.
Qed.

Lemma state_of_charge_in_unit_interval_witness :
  exists q,
    Battery.state_of_charge grid_battery_after_one_tick = Ok q /\
    0 <= q /\ q <= 1.
Proof.
  apply (state_of_charge_in_unit_interval grid_battery_after_one_tick).
  - reflexivity.
  - vm_compute. discriminate.
  - vm_compute. discriminate.
Defined.

(** X6.  [state_of_charge] raises exactly when the energy capacity is zero
    and [storage_duration] raises exactly when the power capacity is zero;
    both zeros pass the setters, so a battery whose capacity was set to zero
    raises on the corresponding ratio. *)
Theorem ratios_raise_on_zero_capacity (b : Battery) :
  (Battery.state_of_charge b = Raise ArithmeticError <->
   Battery.energy_capacity b == 0) /\
  (Battery.storage_duration b = Raise ArithmeticError <->
   Battery.power_capacity b == 0) /\
  Battery.state_of_charge (after (Battery.energy_capacity_setter 0) b) =
    Raise ArithmeticError /\
  Battery.storage_duration (after (Battery.power_capacity_setter 0) b) =
    Raise ArithmeticError.
Proof.
  unfold Battery.state_of_charge, Battery.storage_duration, Battery.py_div.
  split; [|split; [|split]].
  - split.
    + destruct (Qeq_bool (Battery.energy_capacity b) 0) eqn:E;
        [intros _; apply Qeq_bool_iff; exact E|discriminate].
    + intros E. apply Qeq_bool_iff in E. rewrite E. reflexivity.
  - split.
    + destruct (Qeq_bool (Battery.power_capacity b) 0) eqn:E;
        [intros _; apply Qeq_bool_iff; exact E|discriminate].
    + intros E. apply Qeq_bool_iff in E. rewrite E. reflexivity.
  - reflexivity.
  - reflexivity.
Qed.

(** ** Construction with the default histories *)

(** X7.  [Battery.__init__()] without arguments gives the battery two empty
    histories of its own and the fixed identifier; it does not touch the
    capacities or the state assigned before it.  The battery is then empty:
    its current capacity is zero and [discharge()] raises
    [BatteryEmptyError], leaving it as it is.  With histories given, those
    are the battery's histories. *)
Theorem default_histories_are_empty (self : Battery) (ins outs : list Q) :
  let b := after (Battery.__init__ None None) self in
  let b' := after (Battery.__init__ (Some ins) (Some outs)) self in
  Battery.__init__ None None self = (Ok tt, b) /\
  b = mkBattery "abcdfgt" (_energy_capacity self) (_power_capacity self)
                (_state self) (cycle_rate self) [] [] /\
  Battery.current_capacity b == 0 /\
  Battery.discharge b =
    (Raise (BatteryEmptyError "abcdfgt Battery is empty and cannot discharge"),
     b) /\
  b' = mkBattery "abcdfgt" (_energy_capacity self) (_power_capacity self)
                 (_state self) (cycle_rate self) ins outs /\
  Battery.current_capacity b' == Decimal.sub (sum ins) (sum outs).
Proof.
  intros b b'.
  split; [reflexivity|]. split; [reflexivity|].
  split; [vm_compute; reflexivity|].
  split; [reflexivity|].
  split; reflexivity.
Qed.

(** ** Site.state *)

Lemma state_scan_idle (l : list Battery) :
  Site.state_scan l = IDLE <-> forall b, In b l -> Battery.state b = IDLE.
Proof.
  induction l as [|a l IH]; simpl.
  - split; [intros _ b []|reflexivity].
  - destruct (Battery.state a) eqn:E.
    + split; [discriminate|]. intros H.
      specialize (H a (or_introl eq_refl)). congruence.
    + split; [discriminate|]. intros H.
      specialize (H a (or_introl eq_refl)). congruence.
    + rewrite IH. split.
      * intros H b [<-|Hb]; [exact E|apply H; exact Hb].
      * intros H b Hb. apply H. right. exact Hb.
Qed.

Lemma state_scan_first_busy (l : list Battery) :
  Site.state_scan l <> IDLE ->
  exists l1 b l2,
    l = l1 ++ b :: l2 /\
    (forall x, In x l1 -> Battery.state x = IDLE) /\
    Battery.state b = Site.state_scan l.
Proof.
  induction l as [|a l IH]; simpl; [congruence|].
  destruct (Battery.state a) eqn:E.
  - intros _. exists [], a, l. repeat split; [intros x []|exact E].
  - intros _. exists [], a, l. repeat split; [intros x []|exact E].
  - intros H. destruct (IH H) as (l1 & b & l2 & -> & Hl1 & Hb).
    exists (a :: l1), b, l2. repeat split; [|exact Hb].
    intros x [<-|Hx]; [exact E|apply Hl1; exact Hx].
Qed.

(** X8.  The state of a site is [IDLE] exactly when every battery of the
    site is idle (a site without batteries included).  Otherwise it is the
    state of the first battery, in list order, that is not idle: a charging
    battery placed after a discharging one does not make the site
    [CHARGING]. *)
Theorem site_state_is_first_busy_battery (s : Site) :
  (Site.state s = IDLE <->
   forall b, In b (batteries s) -> Battery.state b = IDLE) /\
  (Site.state s <> IDLE ->
   exists l1 b l2,
     batteries s = l1 ++ b :: l2 /\
     (forall x, In x l1 -> Battery.state x = IDLE) /\
     Battery.state b = Site.state s).
Proof.
  split; [apply state_scan_idle|apply state_scan_first_busy].
Qed.

Lemma site_state_is_first_busy_battery_witness :
  let s := Site.__init__ [grid_battery;
                          with_state DISCHARGING grid_battery;
                          with_state CHARGING grid_battery_after_one_tick]
                         "yard" in
  Site.state s = DISCHARGING /\
  exists l1 b l2,
    batteries s = l1 ++ b :: l2 /\
    (forall x, In x l1 -> Battery.state x = IDLE) /\
    Battery.state b = Site.state s.
Proof.
  intros s. split; [reflexivity|].
  apply (site_state_is_first_busy_battery s). discriminate.
Defined.

(** ** Site totals *)

Lemma Forall2_map_le {A} (f g : A -> Q) (l : list A) :
  (forall x, In x l -> f x <= g x) -> Forall2 Qle (map f l) (map g l).
Proof.
  induction l as [|a l IH]; intros H; simpl.
  - constructor.
  - constructor.
    + apply H. left. reflexivity.
    + apply IH. intros x Hx. apply H. right. exact Hx.
Qed.

Lemma sum_map_le {A} (f g : A -> Q) (l : list A) :
  (forall x, In x l -> f x <= g x) -> sum (map f l) <= sum (map g l).
Proof.
  intros H. unfold sum. apply fold_add_le.
  - apply Forall2_map_le. exact H.
  - apply Qle_refl.
Qed.

Lemma sum_map_zero {A} (l : list A) : sum (map (fun _ => 0) l) == 0.
Proof.
  induction l as [|a l IH] using rev_ind; [reflexivity|].
  rewrite map_app. simpl map. rewrite sum_snoc. unfold Decimal.add.
  rewrite (fix_zero _); [reflexivity|]. rewrite IH. reflexivity.
Qed.

(** X9.  When every battery of a site holds between zero and its energy
    capacity, the site's current capacity lies between zero and the site's
    energy capacity. *)
Theorem site_capacity_within_bounds (s : Site) :
  (forall b, In b (batteries s) ->
             0 <= Battery.current_capacity b /\
             Battery.current_capacity b <= Battery.energy_capacity b) ->
  0 <= Site.current_capacity s /\
  Site.current_capacity s <= Site.energy_capacity s.
Proof.
  intros H. unfold Site.current_capacity, Site.energy_capacity. split.
  - rewrite <- (sum_map_zero (batteries s)). apply sum_map_le.
    intros b Hb. apply (H b Hb).
  - apply sum_map_le. intros b Hb. apply (H b Hb).
Qed.

Lemma site_capacity_within_bounds_witness :
  0 <= Site.current_capacity
         (Site.__init__ [grid_battery; grid_battery_after_one_tick] "yard") /\
  Site.current_capacity
    (Site.__init__ [grid_battery; grid_battery_after_one_tick] "yard") <=
  Site.energy_capacity
    (Site.__init__ [grid_battery; grid_battery_after_one_tick] "yard").
Proof.
  apply (site_capacity_within_bounds
           (Site.__init__ [grid_battery; grid_battery_after_one_tick] "yard")).
  intros b [<-|[<-|[]]]; split; intros H; vm_compute in H; discriminate.
Defined.

(** ** The strategies on every list of batteries *)

(** X11.  [determine_charge_battery] raises [ValueError], from [min] of an
    empty list, when every battery is [CHARGING] (or there is none).
    Otherwise it returns a battery of the list: the first one, in list order
    and of whatever state, whose current capacity equals the least current
    capacity found among the batteries that are not [CHARGING]. *)
Theorem lowest_to_highest_charge_selection (rate : Q) (bs : list Battery) :
  ((forall b, In b bs -> Battery.state b = CHARGING) ->
   LowestToHighestChargingStrategy.determine_charge_battery rate bs =
     Raise (ValueError "min() arg is an empty sequence")) /\
  ((exists b, In b bs /\ Battery.state b <> CHARGING) ->
   exists l1 b l2 b0,
     bs = l1 ++ b :: l2 /\
     LowestToHighestChargingStrategy.determine_charge_battery rate bs = Ok b /\
     In b0 bs /\ Battery.state b0 <> CHARGING /\
     Battery.current_capacity b == Battery.current_capacity b0 /\
     (forall b', In b' bs -> Battery.state b' <> CHARGING ->
                 Battery.current_capacity b <= Battery.current_capacity b') /\
     (forall b', In b' l1 ->
                 ~ Battery.current_capacity b' == Battery.current_capacity b)).
Proof. exact (determine_charge_battery_spec rate bs). Qed.

Lemma lowest_to_highest_charge_selection_witness :
  LowestToHighestChargingStrategy.determine_charge_battery 2500
    [with_state CHARGING grid_battery] =
    Raise (ValueError "min() arg is an empty sequence") /\
  exists l1 b l2 b0,
    [grid_battery; grid_battery_after_one_tick] = l1 ++ b :: l2 /\
    LowestToHighestChargingStrategy.determine_charge_battery 2500
      [grid_battery; grid_battery_after_one_tick] = Ok b /\
    In b0 [grid_battery; grid_battery_after_one_tick] /\
    Battery.state b0 <> CHARGING /\
    Battery.current_capacity b == Battery.current_capacity b0 /\
    (forall b', In b' [grid_battery; grid_battery_after_one_tick] ->
                Battery.state b' <> CHARGING ->
                Battery.current_capacity b <= Battery.current_capacity b') /\
    (forall b', In b' l1 ->
                ~ Battery.current_capacity b' == Battery.current_capacity b).
Proof.
  split.
  - apply (lowest_to_highest_charge_selection 2500
             [with_state CHARGING grid_battery]).
    intros b [<-|[]]. reflexivity.
  - apply (lowest_to_highest_charge_selection 2500
             [grid_battery; grid_battery_after_one_tick]).
    exists grid_battery. split; [left; reflexivity|discriminate].
Defined.

(** X12.  [determine_discharge_battery] raises [ValueError], from [max] of
    an empty list, when every battery is [DISCHARGING] (or there is none).
    Otherwise it returns a battery of the list: the first one, in list order
    and of whatever state, whose current capacity equals the greatest current
    capacity found among the batteries that are not [DISCHARGING]. *)
Theorem lowest_to_highest_discharge_selection (rate : Q) (bs : list Battery) :
  ((forall b, In b bs -> Battery.state b = DISCHARGING) ->
   LowestToHighestChargingStrategy.determine_discharge_battery rate bs =
     Raise (ValueError "max() arg is an empty sequence")) /\
  ((exists b, In b bs /\ Battery.state b <> DISCHARGING) ->
   exists l1 b l2 b0,
     bs = l1 ++ b :: l2 /\
     LowestToHighestChargingStrategy.determine_discharge_battery rate bs = Ok b /\
     In b0 bs /\ Battery.state b0 <> DISCHARGING /\
     Battery.current_capacity b == Battery.current_capacity b0 /\
     (forall b', In b' bs -> Battery.state b' <> DISCHARGING ->
                 Battery.current_capacity b' <= Battery.current_capacity b) /\
     (forall b', In b' l1 ->
                 ~ Battery.current_capacity b' == Battery.current_capacity b)).
Proof. exact (determine_discharge_battery_spec rate bs). Qed.

Lemma lowest_to_highest_discharge_selection_witness :
  LowestToHighestChargingStrategy.determine_discharge_battery 2500
    [with_state DISCHARGING grid_battery] =
    Raise (ValueError "max() arg is an empty sequence") /\
  exists l1 b l2 b0,
    [grid_battery_after_one_tick; grid_battery] = l1 ++ b :: l2 /\
    LowestToHighestChargingStrategy.determine_discharge_battery 2500
      [grid_battery_after_one_tick; grid_battery] = Ok b /\
    In b0 [grid_battery_after_one_tick; grid_battery] /\
    Battery.state b0 <> DISCHARGING /\
    Battery.current_capacity b == Battery.current_capacity b0 /\
    (forall b', In b' [grid_battery_after_one_tick; grid_battery] ->
                Battery.state b' <> DISCHARGING ->
                Battery.current_capacity b' <= Battery.current_capacity b) /\
    (forall b', In b' l1 ->
                ~ Battery.current_capacity b' == Battery.current_capacity b).
Proof.
  split.
  - apply (lowest_to_highest_discharge_selection 2500
             [with_state DISCHARGING grid_battery]).
    intros b [<-|[]]. reflexivity.
  - apply (lowest_to_highest_discharge_selection 2500
             [grid_battery_after_one_tick; grid_battery]).
    exists grid_battery. split; [right; left; reflexivity|discriminate].
Defined.

Lemma Qle_neq_lt (x y : Q) : x <= y -> ~ y == x -> x < y.
Proof.
  intros Hle Hne. destruct (Qle_lt_or_eq _ _ Hle) as [H|H]; [exact H|].
  exfalso. apply Hne. symmetry. exact H.
Qed.

(** X13.  On a site that has batteries and whose state is [IDLE], both
    selections succeed and are what one expects: [determine_charge_battery]
    returns an idle battery of least current capacity, every battery before
    it in the list holding strictly more, and [determine_discharge_battery]
    returns an idle battery of greatest current capacity, every battery
    before it holding strictly less. *)
Theorem lowest_to_highest_on_idle_site (rate : Q) (s : Site) :
  batteries s <> [] ->
  Site.state s = IDLE ->
  (exists l1 b l2,
     batteries s = l1 ++ b :: l2 /\
     LowestToHighestChargingStrategy.determine_charge_battery rate (batteries s) =
       Ok b /\
     Battery.state b = IDLE /\
     (forall b', In b' (batteries s) ->
                 Battery.current_capacity b <= Battery.current_capacity b') /\
     (forall b', In b' l1 ->
                 Battery.current_capacity b < Battery.current_capacity b')) /\
  (exists l1 b l2,
     batteries s = l1 ++ b :: l2 /\
     LowestToHighestChargingStrategy.determine_discharge_battery rate (batteries s) =
       Ok b /\
     Battery.state b = IDLE /\
     (forall b', In b' (batteries s) ->
                 Battery.current_capacity b' <= Battery.current_capacity b) /\
     (forall b', In b' l1 ->
                 Battery.current_capacity b' < Battery.current_capacity b)).
Proof.
  intros Hne Hidle.
  assert (Hall : forall b, In b (batteries s) -> Battery.state b = IDLE)
    by (apply state_scan_idle; exact Hidle).
  destruct (batteries s) as [|a rest] eqn:Ebs; [contradiction|].
  split.
  - destruct (determine_charge_battery_spec rate (a :: rest)) as [_ H].
    destruct H as (l1 & b & l2 & b0 & Hsplit & Hres & _ & _ & _ & Hmin & Hfirst).
    { exists a. split; [left; reflexivity|].
      rewrite (Hall a (or_introl eq_refl)). discriminate. }
    assert (Hin : forall x, In x l1 -> In x (a :: rest)).
    { intros x Hx. rewrite Hsplit. apply in_or_app. left. exact Hx. }
    exists l1, b, l2. split; [exact Hsplit|]. split; [exact Hres|].
    split.
    { apply Hall. rewrite Hsplit. apply in_or_app. right. left. reflexivity. }
    split.
    + intros b' Hb'. apply Hmin; [exact Hb'|].
      rewrite (Hall b' Hb'). discriminate.
    + intros b' Hb'. apply Qle_neq_lt.
      * apply Hmin; [apply Hin; exact Hb'|].
        rewrite (Hall b' (Hin b' Hb')). discriminate.
      * apply Hfirst. exact Hb'.
  - destruct (determine_discharge_battery_spec rate (a :: rest)) as [_ H].
    destruct H as (l1 & b & l2 & b0 & Hsplit & Hres & _ & _ & _ & Hmax & Hfirst).
    { exists a. split; [left; reflexivity|].
      rewrite (Hall a (or_introl eq_refl)). discriminate. }
    assert (Hin : forall x, In x l1 -> In x (a :: rest)).
    { intros x Hx. rewrite Hsplit. apply in_or_app. left. exact Hx. }
    exists l1, b, l2. split; [exact Hsplit|]. split; [exact Hres|].
    split.
    { apply Hall. rewrite Hsplit. apply in_or_app. right. left. reflexivity. }
    split.
    + intros b' Hb'. apply Hmax; [exact Hb'|].
      rewrite (Hall b' Hb'). discriminate.
    + intros b' Hb'. apply Qle_neq_lt.
      * apply Hmax; [apply Hin; exact Hb'|].
        rewrite (Hall b' (Hin b' Hb')). discriminate.
      * intros E. apply (Hfirst b' Hb'). symmetry. exact E.
Qed.

Lemma lowest_to_highest_on_idle_site_witness :
  let s := Site.__init__
             [grid_battery; after Battery.idle grid_battery_after_one_tick]
             "yard" in
  (exists l1 b l2,
     batteries s = l1 ++ b :: l2 /\
     LowestToHighestChargingStrategy.determine_charge_battery 2500 (batteries s) =
       Ok b /\
     Battery.state b = IDLE /\
     (forall b', In b' (batteries s) ->
                 Battery.current_capacity b <= Battery.current_capacity b') /\
     (forall b', In b' l1 ->
                 Battery.current_capacity b < Battery.current_capacity b')) /\
  (exists l1 b l2,
     batteries s = l1 ++ b :: l2 /\
     LowestToHighestChargingStrategy.determine_discharge_battery 2500 (batteries s) =
       Ok b /\
     Battery.state b = IDLE /\
     (forall b', In b' (batteries s) ->
                 Battery.current_capacity b' <= Battery.current_capacity b) /\
     (forall b', In b' l1 ->
                 Battery.current_capacity b' < Battery.current_capacity b)).
Proof.
  intros s. apply (lowest_to_highest_on_idle_site 2500 s).
  - discriminate.
  - reflexivity.
Defined.

(** ** The random strategy on every list of batteries *)

Lemma py_index_In {A} (l : list A) (i : Z) (a : A) :
  py_index l i = Ok a -> In a l.
Proof.
  unfold py_index.
  destruct (_ && _)%bool; [|discriminate].
  destruct (nth_error l _) as [x|] eqn:N; [|discriminate].
  intros H. injection H as <-. apply (nth_error_In _ _ N).
Qed.

Lemma py_index_in_range {A} (l : list A) (i : Z) :
  (0 <= i < Z.of_nat (List.length l))%Z -> exists a, py_index l i = Ok a.
Proof.
  intros Hi. unfold py_index.
  destruct (i <? 0)%Z eqn:E; [apply Z.ltb_lt in E; lia|].
  replace ((0 <=? i)%Z && (i <? Z.of_nat (List.length l))%Z) with true
    by (symmetry; apply andb_true_iff; split;
        [apply Z.leb_le|apply Z.ltb_lt]; lia).
  destruct (nth_error l (Z.to_nat i)) as [a|] eqn:N.
  - exists a. reflexivity.
  - apply nth_error_None in N. lia.
Qed.

Lemma py_index_length {A} (l : list A) :
  py_index l (Z.of_nat (List.length l)) = Raise IndexError.
Proof.
  unfold py_index.
  destruct (Z.of_nat (List.length l) <? 0)%Z eqn:E;
    [apply Z.ltb_lt in E; lia|].
  rewrite Z.ltb_irrefl, andb_false_r. reflexivity.
Qed.

Lemma py_index_nil {A} (i : Z) : py_index (@nil A) i = Raise IndexError.
Proof.
  unfold py_index. simpl.
  destruct (i <? 0)%Z eqn:E.
  - rewrite Z.add_0_r. apply Z.ltb_lt in E.
    replace (0 <=? i)%Z with false by (symmetry; apply Z.leb_gt; exact E).
    reflexivity.
  - rewrite andb_comm. rewrite E. reflexivity.
Qed.

(** X14.  When no battery is eligible (every battery is already in the
    target state, or there is none), the random strategy raises
    [IndexError], whatever the random source returns. *)
Theorem random_strategy_without_eligible_battery
    (randint : Z -> Z -> Z) (bs : list Battery) :
  ((forall b, In b bs -> Battery.state b = CHARGING) ->
   RandomChargingStrategy.determine_charge_battery randint bs =
     Raise IndexError) /\
  ((forall b, In b bs -> Battery.state b = DISCHARGING) ->
   RandomChargingStrategy.determine_discharge_battery randint bs =
     Raise IndexError).
Proof.
  unfold RandomChargingStrategy.determine_charge_battery,
         RandomChargingStrategy.determine_discharge_battery.
  split; intros H.
  - rewrite filter_nil_all; [apply py_index_nil|].
    intros b Hb. rewrite (H b Hb). reflexivity.
  - rewrite filter_nil_all; [apply py_index_nil|].
    intros b Hb. rewrite (H b Hb). reflexivity.
Qed.

Lemma random_strategy_without_eligible_battery_witness :
  RandomChargingStrategy.determine_charge_battery (fun a _ => a)
    [with_state CHARGING grid_battery_after_one_tick] = Raise IndexError /\
  RandomChargingStrategy.determine_discharge_battery (fun a _ => a)
    [with_state DISCHARGING grid_battery] = Raise IndexError.
Proof.
  split.
  - apply (random_strategy_without_eligible_battery (fun a _ => a)
             [with_state CHARGING grid_battery_after_one_tick]).
    intros b [<-|[]]. reflexivity.
  - apply (random_strategy_without_eligible_battery (fun a _ => a)
             [with_state DISCHARGING grid_battery]).
    intros b [<-|[]]. reflexivity.
Defined.

(** X15.  With a random source that keeps the contract of [randint], the
    charge selection of the random strategy has exactly two outcomes.  When
    the draw is below the number of eligible batteries it returns a battery
    of the list that is not [CHARGING]; when the draw equals that number it
    raises [IndexError].  It never returns a battery that is [CHARGING]. *)
Theorem random_charge_outcomes (randint : Z -> Z -> Z) (bs : list Battery) :
  RandomChargingStrategy.randint_contract randint ->
  let n := Z.of_nat
             (List.length
                (filter (fun b => negb (BatteryState_eqb (Battery.state b) CHARGING))
                        bs)) in
  ((randint 0 n < n)%Z \/ randint 0%Z n = n) /\
  ((randint 0 n < n)%Z ->
   exists b,
     RandomChargingStrategy.determine_charge_battery randint bs = Ok b) /\
  (randint 0%Z n = n ->
   RandomChargingStrategy.determine_charge_battery randint bs =
     Raise IndexError) /\
  (forall b,
     RandomChargingStrategy.determine_charge_battery randint bs = Ok b ->
     In b bs /\ Battery.state b <> CHARGING).
Proof.
  intros Hc n.
  assert (Hr : (0 <= randint 0 n <= n)%Z) by (apply Hc; unfold n; lia).
  unfold RandomChargingStrategy.determine_charge_battery. fold n.
  split; [lia|].
  split; [intros Hlt; apply py_index_in_range; fold n; lia|].
  split; [intros ->; apply py_index_length|].
  intros b Hb. apply py_index_In in Hb. apply filter_In in Hb.
  destruct Hb as [Hin Hs]. split; [exact Hin|apply state_neqb; exact Hs].
Qed.

Lemma random_charge_outcomes_witness :
  exists b,
    RandomChargingStrategy.determine_charge_battery (fun a _ => a)
      [with_state CHARGING grid_battery_after_one_tick; grid_battery] = Ok b /\
    In b [with_state CHARGING grid_battery_after_one_tick; grid_battery] /\
    Battery.state b <> CHARGING.
Proof.
  destruct (random_charge_outcomes (fun a _ => a)
              [with_state CHARGING grid_battery_after_one_tick; grid_battery])
    as (_ & Hlow & _ & Hsafe).
  - intros a b Hab. lia.
  - destruct Hlow as [b Hb]; [reflexivity|].
    exists b. split; [exact Hb|]. apply Hsafe. exact Hb.
Defined.

(** X16.  The same for the discharge selection of the random strategy: with
    a draw below the number of eligible batteries it returns a battery of the
    list that is not [DISCHARGING], with a draw equal to that number it
    raises [IndexError], and it never returns a battery that is
    [DISCHARGING]. *)
Theorem random_discharge_outcomes (randint : Z -> Z -> Z) (bs : list Battery) :
  RandomChargingStrategy.randint_contract randint ->
  let n := Z.of_nat
             (List.length
                (filter (fun b => negb (BatteryState_eqb (Battery.state b) DISCHARGING))
                        bs)) in
  ((randint 0 n < n)%Z \/ randint 0%Z n = n) /\
  ((randint 0 n < n)%Z ->
   exists b,
     RandomChargingStrategy.determine_discharge_battery randint bs = Ok b) /\
  (randint 0%Z n = n ->
   RandomChargingStrategy.determine_discharge_battery randint bs =
     Raise IndexError) /\
  (forall b,
     RandomChargingStrategy.determine_discharge_battery randint bs = Ok b ->
     In b bs /\ Battery.state b <> DISCHARGING).
Proof.
  intros Hc n.
  assert (Hr : (0 <= randint 0 n <= n)%Z) by (apply Hc; unfold n; lia).
  unfold RandomChargingStrategy.determine_discharge_battery. fold n.
  split; [lia|].
  split; [intros Hlt; apply py_index_in_range; fold n; lia|].
  split; [intros ->; apply py_index_length|].
  intros b Hb. apply py_index_In in Hb. apply filter_In in Hb.
  destruct Hb as [Hin Hs]. split; [exact Hin|apply state_neqb; exact Hs].
Qed.

Lemma random_discharge_outcomes_witness :
  exists b,
    RandomChargingStrategy.determine_discharge_battery (fun a _ => a)
      [with_state DISCHARGING grid_battery; grid_battery_after_one_tick;
       grid_battery] = Ok b /\
    In b [with_state DISCHARGING grid_battery; grid_battery_after_one_tick;
          grid_battery] /\
    Battery.state b <> DISCHARGING.
Proof.
  destruct (random_discharge_outcomes (fun a _ => a)
              [with_state DISCHARGING grid_battery; grid_battery_after_one_tick;
               grid_battery])
    as (_ & Hlow & _ & Hsafe).
  - intros a b Hab. lia.
  - destruct Hlow as [b Hb]; [reflexivity|].
    exists b. split; [exact Hb|]. apply Hsafe. exact Hb.
Defined.

(** ** Site.power_input across a tick *)

Lemma after_increment_inputs (b : Battery) :
  battery_inputs (after Battery.increment b) =
    battery_inputs b ++
    match Battery.state b with
    | CHARGING => [Decimal.truediv (Battery.power_capacity b) 60]
    | _ => []
    end.
Proof.
  unfold after. destruct (Battery.state b) eqn:E.
  - rewrite (increment_charging b E). reflexivity.
  - rewrite (increment_discharging b E). simpl. rewrite app_nil_r. reflexivity.
  - rewrite (increment_idle b E). simpl. rewrite app_nil_r. reflexivity.
Qed.

Lemma nth_inputs_after_increment (b : Battery) (k : nat) :
  (k < List.length (battery_inputs b))%nat ->
  nth k (battery_inputs (after Battery.increment b)) 0 =
  nth k (battery_inputs b) 0.
Proof.
  intros H. rewrite after_increment_inputs. apply app_nth1. exact H.
Qed.

(** X17.  On a site whose batteries all have inputs of the same length, a
    tick in which at least one battery is not [CHARGING] leaves
    [power_input] as it was: the entries that the charging batteries append
    in that tick do not show. *)
Theorem power_input_misses_partial_tick (s : Site) (n : nat) :
  (forall b, In b (batteries s) -> List.length (battery_inputs b) = n) ->
  (exists b, In b (batteries s) /\ Battery.state b <> CHARGING) ->
  Site.power_input (tick s) = Site.power_input s.
Proof.
  intros Hlen (b0 & Hin0 & Hs0).
  destruct (power_input_shortest s n) as [Hl Hn].
  { intros b Hb. rewrite (Hlen b Hb). apply Nat.le_refl. }
  { exists b0. split; [exact Hin0|apply Hlen; exact Hin0]. }
  destruct (power_input_shortest (tick s) n) as [Hl' Hn'].
  { intros b' Hb'. simpl in Hb'. apply in_map_iff in Hb'.
    destruct Hb' as (b & <- & Hb).
    rewrite after_increment_inputs, length_app, (Hlen b Hb). lia. }
  { exists (after Battery.increment b0). split.
    - simpl. apply in_map. exact Hin0.
    - rewrite after_increment_inputs, length_app, (Hlen b0 Hin0).
      destruct (Battery.state b0); [congruence|simpl; lia|simpl; lia]. }
  apply (nth_ext _ _ 0 0).
  - rewrite Hl, Hl'. reflexivity.
  - intros k Hk. rewrite Hl' in Hk.
    rewrite (Hn' k Hk), (Hn k Hk). simpl batteries. rewrite map_map.
    f_equal. apply map_ext_in. intros b Hb.
    apply nth_inputs_after_increment. rewrite (Hlen b Hb). exact Hk.
Qed.

Lemma power_input_misses_partial_tick_witness :
  let s := Site.__init__
             [after Battery.charge grid_battery_after_one_tick; grid_battery]
             "yard" in
  battery_inputs (after Battery.increment
                    (after Battery.charge grid_battery_after_one_tick)) =
    [5000; Decimal.truediv 2500 60] /\
  Site.power_input (tick s) = Site.power_input s.
Proof.
  intros s. split; [vm_compute; reflexivity|].
  apply (power_input_misses_partial_tick s 1).
  - intros b [<-|[<-|[]]]; vm_compute; reflexivity.
  - exists grid_battery. split; [right; left; reflexivity|discriminate].
Defined.

(** X18.  On a site that has batteries, all [CHARGING] and with inputs of
    the same length, a tick appends exactly one entry to [power_input]: the
    sum over the batteries of the decimal quotient [power_capacity / 60]. *)
Theorem power_input_gains_full_tick (s : Site) (n : nat) :
  batteries s <> [] ->
  (forall b, In b (batteries s) -> List.length (battery_inputs b) = n) ->
  (forall b, In b (batteries s) -> Battery.state b = CHARGING) ->
  Site.power_input (tick s) =
    Site.power_input s ++
    [sum (map (fun b => Decimal.truediv (Battery.power_capacity b) 60)
          (batteries s))].
Proof.
  intros Hne Hlen Hch.
  destruct (batteries s) as [|a rest] eqn:Ebs; [contradiction|].
  rewrite <- Ebs in *. clear Hne.
  assert (Ha : In a (batteries s)) by (rewrite Ebs; left; reflexivity).
  destruct (power_input_shortest s n) as [Hl Hn].
  { intros b Hb. rewrite (Hlen b Hb). apply Nat.le_refl. }
  { exists a. split; [exact Ha|apply Hlen; exact Ha]. }
  assert (Hlen' : forall b, In b (batteries s) ->
            List.length (battery_inputs (after Battery.increment b)) = S n).
  { intros b Hb. rewrite after_increment_inputs, length_app, (Hlen b Hb),
      (Hch b Hb). simpl. lia. }
  destruct (power_input_shortest (tick s) (S n)) as [Hl' Hn'].
  { intros b' Hb'. simpl in Hb'. apply in_map_iff in Hb'.
    destruct Hb' as (b & <- & Hb). rewrite (Hlen' b Hb). apply Nat.le_refl. }
  { exists (after Battery.increment a). split.
    - simpl. apply in_map. exact Ha.
    - apply Hlen'. exact Ha. }
  apply (nth_ext _ _ 0 0).
  - rewrite length_app, Hl, Hl'. simpl. lia.
  - intros k Hk. rewrite Hl' in Hk.
    rewrite (Hn' k Hk). simpl batteries. rewrite map_map.
    destruct (Nat.eq_dec k n) as [->|Hkn].
    + rewrite app_nth2 by (rewrite Hl; apply Nat.le_refl).
      rewrite Hl, Nat.sub_diag. simpl nth.
      f_equal. apply map_ext_in. intros b Hb.
      rewrite after_increment_inputs, (Hch b Hb).
      rewrite app_nth2 by (rewrite (Hlen b Hb); apply Nat.le_refl).
      rewrite (Hlen b Hb), Nat.sub_diag. reflexivity.
    + assert (Hk' : (k < n)%nat) by lia.
      rewrite app_nth1 by (rewrite Hl; exact Hk').
      rewrite (Hn k Hk'). f_equal. apply map_ext_in. intros b Hb.
      apply nth_inputs_after_increment. rewrite (Hlen b Hb). exact Hk'.
Qed.

Lemma power_input_gains_full_tick_witness :
  let b := after Battery.charge grid_battery_after_one_tick in
  let s := Site.__init__ [b; b] "yard" in
  Site.power_input (tick s) =
    Site.power_input s ++
    [sum (map (fun b => Decimal.truediv (Battery.power_capacity b) 60)
          (batteries s))].
Proof.
  intros b s. apply (power_input_gains_full_tick s 1).
  - discriminate.
  - intros x [<-|[<-|[]]]; vm_compute; reflexivity.
  - intros x [<-|[<-|[]]]; vm_compute; reflexivity.
Defined.
